(** * xlog: leveled logging to a caller sink, the system log and the console

    A shallow embedding of [xlog.go] and of its platform adapter
    ([setup], the syslog variant), with the parts of Go's standard
    library the package leans on ([sync.Mutex], [io.MultiWriter],
    [log.Logger.Output]) written out as the Go sources have them.

    Go code runs here in a small state monad whose outcomes are: the
    call returned, it panicked, it blocked for ever on [logLock], or it
    ended the process through [os.Exit]. *)

From Stdlib Require Import ZArith List String Ascii Bool Lia PeanoNat.
Import ListNotations.
Local Open Scope string_scope.
Local Open Scope list_scope.
Local Open Scope Z_scope.

Set Implicit Arguments.

(** ** Values that cross the package boundary *)

(** A Go [error], kept by its message. *)
Definition error := string.

(** An [io.Writer] interface value.  [Nil] is the nil interface.  [Obj a c]
    is an object of the caller with identity [a] whose dynamic type has
    ([c = true]) or has not a [Close() error] method.  [Sys p] is an
    interface holding a pointer to the platform writer ([*syslog.Writer]);
    [Sys None] holds the nil pointer of that type, which as an interface
    value is NOT equal to nil. *)
Inductive writer : Type :=
| Nil
| Stdout
| Stderr
| Obj (a : nat) (closer : bool)
| Sys (p : option nat).

Definition writer_eq_dec (x y : writer) : {x = y} + {x <> y}.
Proof. repeat decide equality. Defined.

(** [w.(io.Closer)]: does the type assertion succeed?  [*os.File] and the
    platform writer have a [Close] method; the nil interface asserts to
    nothing. *)
Definition is_Closer (w : writer) : bool :=
  match w with
  | Nil => false
  | Stdout | Stderr => true
  | Obj _ c => c
  | Sys _ => true
  end.

(** Does a method call on [w] reach an object?  A call on the nil
    interface, or on the nil platform writer (whose methods read fields of
    the receiver at once), is a nil dereference. *)
Definition live (w : writer) : bool :=
  match w with
  | Nil | Sys None => false
  | _ => true
  end.

(** Arguments of the variadic logging functions, [v ...interface{}]. *)
Inductive value : Type :=
| VString (s : string)
| VInt (n : Z)
| VError (e : error).

(** What the process did to the outside, oldest first. *)
Inductive event : Type :=
| EvSyslogNew (priority : Z) (tag : string)
| EvWrite (w : writer) (p : string)
| EvClose (c : writer)
| EvCloseFailed (c : writer) (err : error).

(** ** The collaborators

    Everything the package does not decide itself: what a destination
    answers to [Write] and [Close] (it may depend on all that happened
    before), whether the system log can be reached, how [fmt] renders
    arguments, and the date, time and file:line text that [log] puts in a
    line's header for given flags and call depth.  Destinations are taken
    to answer: their [Write] and [Close] return and do not call back into
    this package. *)
Record Env : Type := {
  Write_res : list event -> writer -> string -> Z * option error;
  Close_res : list event -> writer -> option error;
  syslog_New_res : list event -> Z -> string -> option error;
  Sprint : list value -> string;
  Sprintln : list value -> string;
  Sprintf : string -> list value -> string;
  stamp : Z -> Z -> string
}.

(** ** Constants of xlog.go *)

(** [type log_level int] with the [iota] constants of lines 18-24. *)
Definition log_level := Z.
Definition eFatal : log_level := 0.
Definition eError : log_level := 1.
Definition eWarn : log_level := 2.
Definition eInfo : log_level := 3.
Definition eTrace : log_level := 4.

Definition tagFatal : string := "[F] ".
Definition tagError : string := "[E] ".
Definition tagWarn : string := "[W] ".
Definition tagInfo : string := "[I] ".
Definition tagTrace : string := "[T] ".

(** Flag bits of Go's [log] package. *)
Definition Ldate : Z := 1.
Definition Ltime : Z := 2.
Definition Lmicroseconds : Z := 4.
Definition Llongfile : Z := 8.
Definition Lshortfile : Z := 16.
Definition LUTC : Z := 32.
Definition Lmsgprefix : Z := 64.

Definition LstdFlags : Z := Z.lor Ldate Ltime.

Definition flags : Z := Z.lor (Z.lor Ldate Lmicroseconds) Lshortfile.

Definition nl : string := String (ascii_of_nat 10) EmptyString.

Definition initText : string := ("Logging before logger.Init." ++ nl)%string.

(** Priorities of [log/syslog] used by [setup]. *)
Definition LOG_ERR : Z := 3.
Definition LOG_WARNING : Z := 4.
Definition LOG_NOTICE : Z := 5.
Definition LOG_USER : Z := Z.shiftl 1 3.

(** ** Loggers and the process state *)

(** The [out] of a [log.Logger]: a plain writer, or the [*multiWriter]
    that [io.MultiWriter] returns, with its own copy of the list. *)
Inductive sink : Type :=
| SWriter (w : writer)
| SMulti (ws : list writer).

(** [log.Logger], as far as [log.New] and [Output] use it. *)
Record log_Logger : Type := {
  out : sink;
  prefix : string;
  flag : Z
}.

Definition log_New (o : sink) (pre : string) (fl : Z) : log_Logger :=
  {| out := o; prefix := pre; flag := fl |}.

(** [type Logger struct], lines 133-141. *)
Record Logger : Type := {
  logFatal : log_Logger;
  logError : log_Logger;
  logWarn : log_Logger;
  logInfo : log_Logger;
  logTrace : log_Logger;
  closers : list writer;
  initialized : bool
}.

(** Loggers live in a heap and are known by address ([*Logger]);
    [defaultLogger] and [logLock] are the package variables of lines 40-43;
    [sys_next] numbers the platform writers created so far. *)
Record State : Type := {
  heap : list Logger;
  defaultLogger : nat;
  logLock : bool;
  sys_next : nat;
  events : list event
}.

Definition set_defaultLogger (p : nat) (s : State) : State :=
  {| heap := heap s; defaultLogger := p; logLock := logLock s;
     sys_next := sys_next s; events := events s |}.

Definition set_logLock (b : bool) (s : State) : State :=
  {| heap := heap s; defaultLogger := defaultLogger s; logLock := b;
     sys_next := sys_next s; events := events s |}.

Definition add_events (es : list event) (s : State) : State :=
  {| heap := heap s; defaultLogger := defaultLogger s; logLock := logLock s;
     sys_next := sys_next s; events := events s ++ es |}.

Definition add_event (e : event) (s : State) : State := add_events [e] s.

Definition push_Logger (l : Logger) (s : State) : State :=
  {| heap := heap s ++ [l]; defaultLogger := defaultLogger s;
     logLock := logLock s; sys_next := sys_next s; events := events s |}.

Definition bump_sys (s : State) : State :=
  {| heap := heap s; defaultLogger := defaultLogger s; logLock := logLock s;
     sys_next := S (sys_next s); events := events s |}.

(** ** Outcomes of a call

    A call returns, panics, waits for ever on [logLock], or ends the
    process through [os.Exit].  [Block] says that the goroutine of the
    call is never woken again, and no more: what becomes of the process
    then is the Go runtime's business (it goes on with its other
    goroutines, or, when none of them can run, reports a deadlock and ends
    the process with status 2) and is not modelled.  [Exit] stands for
    [os.Exit] only. *)

Inductive outcome (A : Type) : Type :=
| Ret (a : A) (s : State)
| Panic (msg : string) (s : State)
| Block (s : State)
| Exit (code : Z) (s : State).

Arguments Panic {A} msg s.
Arguments Block {A} s.
Arguments Exit {A} code s.

Definition M (A : Type) : Type := State -> outcome A.

Definition ret {A} (a : A) : M A := fun s => Ret a s.

Definition bind {A B} (c : M A) (k : A -> M B) : M B :=
  fun s =>
    match c s with
    | Ret a s1 => k a s1
    | Panic m s1 => Panic m s1
    | Block s1 => Block s1
    | Exit n s1 => Exit n s1
    end.

Declare Scope go_scope.
Delimit Scope go_scope with go.
Notation "x <- c ;; k" := (bind c (fun x => k))
  (at level 100, c at next level, right associativity) : go_scope.
Notation "c ;;; k" := (bind c (fun _ => k))
  (at level 100, right associativity) : go_scope.
Local Open Scope go_scope.

Definition state_of {A} (o : outcome A) : State :=
  match o with
  | Ret _ s | Panic _ s | Block s | Exit _ s => s
  end.

Definition panic {A} (msg : string) : M A := fun s => Panic msg s.

Definition nil_deref : string :=
  "invalid memory address or nil pointer dereference".

Definition emit (e : event) : M unit := fun s => Ret tt (add_event e s).

(** [os.Exit(code)]: the process ends, deferred calls do not run. *)
Definition os_Exit {A} (code : Z) : M A := fun s => Exit code s.

(** ** sync.Mutex

    [Lock] on a mutex that is held waits until it is released.  Every
    release in this package is the deferred [Unlock] of the call that took
    the lock, so a call that finds [logLock] held while its own caller
    holds it waits for ever. *)
Definition Lock : M unit :=
  fun s => if logLock s then Block s else Ret tt (set_logLock true s).

Definition Unlock (s : State) : State := set_logLock false s.

(** [logLock.Lock(); defer logLock.Unlock(); body]: the deferred call runs
    when the body returns and when it panics. *)
Definition locked {A} (body : M A) : M A :=
  fun s =>
    match Lock s with
    | Ret _ s1 =>
        match body s1 with
        | Ret a s2 => Ret a (Unlock s2)
        | Panic m s2 => Panic m (Unlock s2)
        | Block s2 => Block s2
        | Exit n s2 => Exit n s2
        end
    | Panic m s1 => Panic m s1
    | Block s1 => Block s1
    | Exit n s1 => Exit n s1
    end.

(** [*p] for a [*Logger]. *)
Definition load (p : nat) : M Logger :=
  fun s =>
    match nth_error (heap s) p with
    | Some l => Ret l s
    | None => Panic nil_deref s
    end.

(** [&l] for a Logger that escapes: a new address. *)
Definition alloc (l : Logger) : M nat :=
  fun s => Ret (List.length (heap s)) (push_Logger l s).

Section Xlog.

Variable E : Env.

(** ** Writing *)

Definition len (p : string) : Z := Z.of_nat (String.length p).

(** [w.Write(p)] on one destination. *)
Definition writer_Write (w : writer) (p : string) : M (Z * option error) :=
  fun s =>
    if live w
    then Ret (Write_res E (events s) w p) (add_event (EvWrite w p) s)
    else Panic nil_deref s.

Definition ErrShortWrite : error := "short write".

(** [multiWriter.Write] of Go's [io] package:
<<
    for _, w := range t.writers {
        n, err = w.Write(p)
        if err != nil { return }
        if n != len(p) { err = ErrShortWrite; return }
    }
    return len(p), nil
>> *)
Fixpoint multiWriter_Write (ws : list writer) (p : string)
  : M (Z * option error) :=
  match ws with
  | [] => ret (len p, None)
  | w :: ws' =>
      r <- writer_Write w p ;;
      match snd r with
      | Some e => ret (fst r, Some e)
      | None =>
          if fst r =? len p
          then multiWriter_Write ws' p
          else ret (fst r, Some ErrShortWrite)
      end
  end.

Definition sink_Write (o : sink) (p : string) : M (Z * option error) :=
  match o with
  | SWriter w => writer_Write w p
  | SMulti ws => multiWriter_Write ws p
  end.

Fixpoint ends_with_nl (s : string) : bool :=
  match s with
  | EmptyString => false
  | String c EmptyString => Ascii.eqb c (ascii_of_nat 10)
  | String _ rest => ends_with_nl rest
  end.

(** The line [log.Logger.Output] builds: the header (prefix first, unless
    [Lmsgprefix] moves it next to the message), the text, and a newline
    when the text does not end in one. *)
Definition log_header (lg : log_Logger) (calldepth : Z) : string :=
  if Z.land (flag lg) Lmsgprefix =? 0
  then (prefix lg ++ stamp E (flag lg) calldepth)%string
  else (stamp E (flag lg) calldepth ++ prefix lg)%string.

Definition log_line (lg : log_Logger) (calldepth : Z) (s : string) : string :=
  (log_header lg calldepth ++ s ++ (if ends_with_nl s then EmptyString else nl))%string.

(** [log.Logger.Output(calldepth, s)]: one [Write] of the line to
    [out]; the error of that write is the result. *)
Definition log_Output (lg : log_Logger) (calldepth : Z) (s : string)
  : M (option error) :=
  r <- sink_Write (out lg) (log_line lg calldepth s) ;;
  ret (snd r).

(** ** Logger methods *)

(** [func (l *Logger) output], lines 143-160.  The result of [Output] is
    dropped. *)
Definition output (l : nat) (level : log_level) (depth : Z) (txt : string)
  : M unit :=
  locked
    (L <- load l ;;
     if level =? eTrace then log_Output (logTrace L) (3 + depth) txt ;;; ret tt
     else if level =? eInfo then log_Output (logInfo L) (3 + depth) txt ;;; ret tt
     else if level =? eWarn then log_Output (logWarn L) (3 + depth) txt ;;; ret tt
     else if level =? eError then log_Output (logError L) (3 + depth) txt ;;; ret tt
     else if level =? eFatal then log_Output (logFatal L) (3 + depth) txt ;;; ret tt
     else panic (Sprintln E [VString "unrecognized log_level:"; VInt level])).

(** [c.Close()] on one closer. *)
Definition closer_Close (c : writer) : M (option error) :=
  fun s =>
    if live c
    then Ret (Close_res E (events s) c) (add_event (EvClose c) s)
    else Panic nil_deref s.

(** The loop of lines 173-177; a failure is printed to [os.Stderr]. *)
Fixpoint close_all (cs : list writer) : M unit :=
  match cs with
  | [] => ret tt
  | c :: cs' =>
      r <- closer_Close c ;;
      match r with
      | Some err => emit (EvCloseFailed c err) ;;; close_all cs'
      | None => close_all cs'
      end
  end.

(** [func (l *Logger) Close], lines 165-178. *)
Definition Logger_Close (l : nat) : M unit :=
  locked
    (L <- load l ;;
     if negb (initialized L) then ret tt else close_all (closers L)).

Definition Logger_Trace (l : nat) (v : list value) : M unit :=
  output l eTrace 0 (Sprint E v).
Definition Logger_TraceDepth (l : nat) (depth : Z) (v : list value) : M unit :=
  output l eTrace depth (Sprint E v).
Definition Logger_Traceln (l : nat) (v : list value) : M unit :=
  output l eTrace 0 (Sprintln E v).
Definition Logger_Tracef (l : nat) (format : string) (v : list value) : M unit :=
  output l eTrace 0 (Sprintf E format v).

Definition Logger_Info (l : nat) (v : list value) : M unit :=
  output l eInfo 0 (Sprint E v).
Definition Logger_InfoDepth (l : nat) (depth : Z) (v : list value) : M unit :=
  output l eInfo depth (Sprint E v).
Definition Logger_Infoln (l : nat) (v : list value) : M unit :=
  output l eInfo 0 (Sprintln E v).
Definition Logger_Infof (l : nat) (format : string) (v : list value) : M unit :=
  output l eInfo 0 (Sprintf E format v).

Definition Logger_Warning (l : nat) (v : list value) : M unit :=
  output l eWarn 0 (Sprint E v).
Definition Logger_WarningDepth (l : nat) (depth : Z) (v : list value) : M unit :=
  output l eWarn depth (Sprint E v).
Definition Logger_Warningln (l : nat) (v : list value) : M unit :=
  output l eWarn 0 (Sprintln E v).
Definition Logger_Warningf (l : nat) (format : string) (v : list value) : M unit :=
  output l eWarn 0 (Sprintf E format v).

Definition Logger_Error (l : nat) (v : list value) : M unit :=
  output l eError 0 (Sprint E v).
Definition Logger_ErrorDepth (l : nat) (depth : Z) (v : list value) : M unit :=
  output l eError depth (Sprint E v).
Definition Logger_Errorln (l : nat) (v : list value) : M unit :=
  output l eError 0 (Sprintln E v).
Definition Logger_Errorf (l : nat) (format : string) (v : list value) : M unit :=
  output l eError 0 (Sprintf E format v).

Definition Logger_Fatal (l : nat) (v : list value) : M unit :=
  output l eFatal 0 (Sprint E v) ;;; Logger_Close l ;;; os_Exit 1.
Definition Logger_FatalDepth (l : nat) (depth : Z) (v : list value) : M unit :=
  output l eFatal depth (Sprint E v) ;;; Logger_Close l ;;; os_Exit 1.
Definition Logger_Fatalln (l : nat) (v : list value) : M unit :=
  output l eFatal 0 (Sprintln E v) ;;; Logger_Close l ;;; os_Exit 1.
Definition Logger_Fatalf (l : nat) (format : string) (v : list value) : M unit :=
  output l eFatal 0 (Sprintf E format v) ;;; Logger_Close l ;;; os_Exit 1.

(** ** Package-level functions on the default logger *)

(** Reads the package variable [defaultLogger]. *)
Definition on_default {A} (f : nat -> M A) : M A :=
  fun s => f (defaultLogger s) s.

Definition Close : M unit := on_default Logger_Close.

Definition Trace (v : list value) : M unit :=
  on_default (fun d => output d eTrace 0 (Sprint E v)).
Definition TraceDepth (depth : Z) (v : list value) : M unit :=
  on_default (fun d => output d eTrace depth (Sprint E v)).
Definition Traceln (v : list value) : M unit :=
  on_default (fun d => output d eTrace 0 (Sprintln E v)).
Definition Tracef (format : string) (v : list value) : M unit :=
  on_default (fun d => output d eTrace 0 (Sprintf E format v)).

Definition Info (v : list value) : M unit :=
  on_default (fun d => output d eInfo 0 (Sprint E v)).
Definition InfoDepth (depth : Z) (v : list value) : M unit :=
  on_default (fun d => output d eInfo depth (Sprint E v)).
Definition Infoln (v : list value) : M unit :=
  on_default (fun d => output d eInfo 0 (Sprintln E v)).
Definition Infof (format : string) (v : list value) : M unit :=
  on_default (fun d => output d eInfo 0 (Sprintf E format v)).

Definition Warning (v : list value) : M unit :=
  on_default (fun d => output d eWarn 0 (Sprint E v)).
Definition WarningDepth (depth : Z) (v : list value) : M unit :=
  on_default (fun d => output d eWarn depth (Sprint E v)).
Definition Warningln (v : list value) : M unit :=
  on_default (fun d => output d eWarn 0 (Sprintln E v)).
Definition Warningf (format : string) (v : list value) : M unit :=
  on_default (fun d => output d eWarn 0 (Sprintf E format v)).

Definition Error (v : list value) : M unit :=
  on_default (fun d => output d eError 0 (Sprint E v)).
Definition ErrorDepth (depth : Z) (v : list value) : M unit :=
  on_default (fun d => output d eError depth (Sprint E v)).
Definition Errorln (v : list value) : M unit :=
  on_default (fun d => output d eError 0 (Sprintln E v)).
Definition Errorf (format : string) (v : list value) : M unit :=
  on_default (fun d => output d eError 0 (Sprintf E format v)).

Definition Fatal (v : list value) : M unit :=
  on_default (fun d => output d eFatal 0 (Sprint E v)) ;;;
  on_default Logger_Close ;;; os_Exit 1.
Definition FatalDepth (depth : Z) (v : list value) : M unit :=
  on_default (fun d => output d eFatal depth (Sprint E v)) ;;;
  on_default Logger_Close ;;; os_Exit 1.
Definition Fatalln (v : list value) : M unit :=
  on_default (fun d => output d eFatal 0 (Sprintln E v)) ;;;
  on_default Logger_Close ;;; os_Exit 1.
Definition Fatalf (format : string) (v : list value) : M unit :=
  on_default (fun d => output d eFatal 0 (Sprintf E format v)) ;;;
  on_default Logger_Close ;;; os_Exit 1.

(** ** The platform adapter *)

(** [syslog.New(priority, tag)]: a new [*syslog.Writer], or an error with
    the nil pointer. *)
Definition syslog_New (priority : Z) (tag : string)
  : M (option nat * option error) :=
  fun s =>
    let s1 := add_event (EvSyslogNew priority tag) s in
    match syslog_New_res E (events s) priority tag with
    | Some err => Ret (None, Some err) s1
    | None => Ret (Some (sys_next s), None) (bump_sys s1)
    end.

(** [func setup(src string)], the syslog variant, lines 7-22.  The event
    log variant has the same shape: three writers, or three nil pointers
    and the error. *)
Definition setup (src : string)
  : M (option nat * option nat * option nat * option error) :=
  r1 <- syslog_New (Z.lor LOG_USER LOG_NOTICE) src ;;
  match snd r1 with
  | Some err => ret (None, None, None, Some err)
  | None =>
      r2 <- syslog_New (Z.lor LOG_USER LOG_WARNING) src ;;
      match snd r2 with
      | Some err => ret (None, None, None, Some err)
      | None =>
          r3 <- syslog_New (Z.lor LOG_USER LOG_ERR) src ;;
          match snd r3 with
          | Some err => ret (None, None, None, Some err)
          | None => ret (fst r1, fst r2, fst r3, None)
          end
      end
  end.

(** ** Init *)

(** Lines 73-77.  [il], [wl] and [el] are [io.Writer] variables: they stay
    the nil interface when [systemLog] is off, and the assignment from
    [setup] stores a pointer in each, so that after it they differ from
    nil whether the pointer is nil or not. *)
Definition Init_setup (name : string) (systemLog : bool)
  : M (writer * writer * writer * option error) :=
  if systemLog
  then
    r <- setup name ;;
    let '(i, w, e, err) := r in
    ret (Sys i, Sys w, Sys e, err)
  else ret (Nil, Nil, Nil, None).

(** [if x != nil { logs = append(logs, x) }]. *)
Definition append_present (logs : list writer) (x : writer) : list writer :=
  match x with
  | Nil => logs
  | _ => logs ++ [x]
  end.

(** The three slices of lines 79-96. *)
Definition iLogs (verbose : bool) (logFile il : writer) : list writer :=
  let l := append_present [logFile] il in
  if verbose then l ++ [Stdout] else l.

Definition wLogs (verbose : bool) (logFile wl : writer) : list writer :=
  let l := append_present [logFile] wl in
  if verbose then l ++ [Stdout] else l.

Definition eLogs (logFile el : writer) : list writer :=
  append_present [logFile] el ++ [Stderr].

(** [io.MultiWriter(ws...)]: a multiWriter over a copy of the list.  (Go
    splices in the lists of arguments that are multiWriters themselves,
    which changes nothing in what a write does; such a sink of the caller
    is an [Obj] here.) *)
Definition io_MultiWriter (ws : list writer) : sink := SMulti ws.

(** The loop of lines 106-110: [c, ok := w.(io.Closer); ok && c != nil]. *)
Fixpoint collect_closers (ws : list writer) (acc : list writer)
  : list writer :=
  match ws with
  | [] => acc
  | w :: ws' => collect_closers ws' (if is_Closer w then acc ++ [w] else acc)
  end.

(** The Logger value [l] of lines 98-111. *)
Definition new_Logger (verbose : bool) (logFile il wl el : writer) : Logger :=
  {| logFatal := log_New (io_MultiWriter (eLogs logFile el)) tagFatal flags;
     logError := log_New (io_MultiWriter (eLogs logFile el)) tagError flags;
     logWarn := log_New (io_MultiWriter (wLogs verbose logFile wl)) tagWarn flags;
     logInfo := log_New (io_MultiWriter (iLogs verbose logFile il)) tagInfo flags;
     logTrace := log_New (io_MultiWriter (iLogs verbose logFile il)) tagTrace flags;
     closers := collect_closers [logFile; il; wl; el] [];
     initialized := true |}.

(** [func Init], lines 72-124. *)
Definition Init (name : string) (verbose systemLog : bool) (logFile : writer)
  : M nat :=
  r <- Init_setup name systemLog ;;
  let '(il, wl, el, syslogErr) := r in
  p <- alloc (new_Logger verbose logFile il wl el) ;;
  locked
    (d <- on_default load ;;
     (if negb (initialized d)
      then (fun s => Ret tt (set_defaultLogger p s))
      else ret tt) ;;;
     match syslogErr with
     | Some err => Error [VError err]
     | None => ret tt
     end ;;;
     ret p).

End Xlog.

(** ** Process start *)

(** The stub that [initialize] builds, lines 45-53. *)
Definition bootstrap : Logger :=
  {| logFatal := log_New (SWriter Stderr) (initText ++ tagFatal)%string flags;
     logError := log_New (SWriter Stderr) (initText ++ tagError)%string flags;
     logWarn := log_New (SWriter Stderr) (initText ++ tagWarn)%string flags;
     logInfo := log_New (SWriter Stderr) (initText ++ tagInfo)%string flags;
     logTrace := log_New (SWriter Stderr) (initText ++ tagTrace)%string flags;
     closers := [];
     initialized := false |}.

Definition initialize : M unit :=
  p <- alloc bootstrap ;;
  fun s => Ret tt (set_defaultLogger p s).

(** The state in which [main] starts: package variables at their zero
    values, then [init()]. *)
Definition zero_state : State :=
  {| heap := []; defaultLogger := 0%nat; logLock := false;
     sys_next := 0%nat; events := [] |}.

Definition start : State := state_of (initialize zero_state).

(** ** Vocabulary of the properties *)

(** The destinations behind a [log.Logger]. *)
Definition sink_writers (o : sink) : list writer :=
  match o with
  | SWriter w => [w]
  | SMulti ws => ws
  end.

Definition all_live (ws : list writer) : Prop :=
  Forall (fun w => live w = true) ws.

(** The [log.Logger] that the switch of [output] picks. *)
Definition level_logger (L : Logger) (level : log_level) : option log_Logger :=
  if level =? eTrace then Some (logTrace L)
  else if level =? eInfo then Some (logInfo L)
  else if level =? eWarn then Some (logWarn L)
  else if level =? eError then Some (logError L)
  else if level =? eFatal then Some (logFatal L)
  else None.

Definition tag_of (level : log_level) : string :=
  if level =? eFatal then tagFatal
  else if level =? eError then tagError
  else if level =? eWarn then tagWarn
  else if level =? eInfo then tagInfo
  else tagTrace.

(** The list Init hands to [io.MultiWriter] for a severity. *)
Definition endpoints_for (level : log_level) (verbose : bool)
  (logFile il wl el : writer) : list writer :=
  if (level =? eFatal) || (level =? eError) then eLogs logFile el
  else if level =? eWarn then wLogs verbose logFile wl
  else iLogs verbose logFile il.

(** One [Write] of [p] on each of [ws], in order. *)
Definition writes (ws : list writer) (p : string) : list event :=
  map (fun w => EvWrite w p) ws.

(** Did the write of [p] to [w], after the history [hist], go through in
    the eyes of [multiWriter.Write]: no error and all bytes taken? *)
Definition write_ok (E : Env) (hist : list event) (w : writer) (p : string)
  : bool :=
  match snd (Write_res E hist w p) with
  | Some _ => false
  | None => fst (Write_res E hist w p) =? len p
  end.

(** How often [c.Close()] was called in a run of events. *)
Definition close_count (c : writer) (es : list event) : nat :=
  List.length
    (filter (fun e => match e with
                      | EvClose c' => if writer_eq_dec c c' then true else false
                      | _ => false
                      end) es).

Definition is_write (e : event) : bool :=
  match e with
  | EvWrite _ _ => true
  | _ => false
  end.

(** The events of [s'] that came after [s]. *)
Definition events_since (s s' : State) : list event :=
  skipn (List.length (events s)) (events s').

(** The caller's sink exists before the call: it is not a platform writer
    that has yet to be created, and not the nil platform writer. *)
Definition sink_known (s : State) (logFile : writer) : Prop :=
  match logFile with
  | Sys None => False
  | Sys (Some k) => (k < sys_next s)%nat
  | _ => True
  end.

(** A call of Init and a run of such calls; after each call that returns,
    the run notes the pointer it returned and the value of the
    [defaultLogger] slot. *)
Record call : Type := {
  c_name : string;
  c_verbose : bool;
  c_systemLog : bool;
  c_logFile : writer
}.

Fixpoint Init_run (E : Env) (cs : list call) : M (list (nat * nat)) :=
  match cs with
  | [] => ret []
  | c :: cs' =>
      p <- Init E (c_name c) (c_verbose c) (c_systemLog c) (c_logFile c) ;;
      d <- (fun s => Ret (defaultLogger s) s) ;;
      rest <- Init_run E cs' ;;
      ret ((p, d) :: rest)
  end.

(** [k] of the endpoints [ws] were written, after the history [hist]: the
    write went on only past endpoints that took it, and stopped short of
    the end of the list only at an endpoint that did not. *)
Definition stopped_at_first_failure (E : Env) (hist : list event)
  (ws : list writer) (p : string) (k : nat) : Prop :=
  (k <= List.length ws)%nat
  /\ (ws <> [] -> (1 <= k)%nat)
  /\ (forall i w, (S i < k)%nat -> nth_error ws i = Some w ->
        write_ok E (hist ++ writes (firstn i ws) p) w p = true)
  /\ ((k < List.length ws)%nat ->
        exists w, nth_error ws (k - 1) = Some w
          /\ write_ok E (hist ++ writes (firstn (k - 1) ws) p) w p = false).

(** Every endpoint of [ws] takes the write of [p] when its turn comes. *)
Definition all_writes_ok (E : Env) (hist : list event) (ws : list writer)
  (p : string) : Prop :=
  forall i w, nth_error ws i = Some w ->
    write_ok E (hist ++ writes (firstn i ws) p) w p = true.

(** The state Init leaves: the new Logger [L] at the end of the heap, and
    in the [defaultLogger] slot unless the Logger found there was
    initialized. *)
Definition after_Init (L : Logger) (was_initialized lock : bool) (s : State)
  : State :=
  {| heap := heap s ++ [L];
     defaultLogger :=
       if was_initialized then defaultLogger s else List.length (heap s);
     logLock := lock;
     sys_next := sys_next s;
     events := events s |}.

(** What a Fatal call [call] on the Logger at [l] does from [s]: the line
    goes through the Logger's Fatal writer, then [Close] runs on the same
    Logger and returns, and only then the process exits, with status 1. *)
Definition writes_closes_exits (E : Env) (l : nat) (depth : Z) (txt : string)
  (call : M unit) (s : State) : Prop :=
  exists L k es,
    nth_error (heap s) l = Some L
    /\ stopped_at_first_failure E (events s) (sink_writers (out (logFatal L)))
         (log_line E (logFatal L) (3 + depth) txt) k
    /\ output E l eFatal depth txt s
       = Ret tt (add_events
                   (writes (firstn k (sink_writers (out (logFatal L))))
                           (log_line E (logFatal L) (3 + depth) txt)) s)
    /\ Logger_Close E l
         (add_events
            (writes (firstn k (sink_writers (out (logFatal L))))
                    (log_line E (logFatal L) (3 + depth) txt)) s)
       = Ret tt
           (add_events es
              (add_events
                 (writes (firstn k (sink_writers (out (logFatal L))))
                         (log_line E (logFatal L) (3 + depth) txt)) s))
    /\ filter is_write es = []
    /\ call s
       = Exit 1
           (add_events es
              (add_events
                 (writes (firstn k (sink_writers (out (logFatal L))))
                         (log_line E (logFatal L) (3 + depth) txt)) s)).

(** The claims that the code does not meet, as they are worded. *)

(** A fan-out write reaches every endpoint of the list, in order. *)
Definition fans_out_to_all (E : Env) (ws : list writer) (p : string)
  (s : State) : Prop :=
  events (state_of (multiWriter_Write E ws p s)) = events s ++ writes ws p.

(** A message logged at [level] is written, with its tag in front, to every
    endpoint configured for [level]. *)
Definition reaches_every_endpoint (E : Env) (l : nat) (level : log_level)
  (depth : Z) (txt : string) (ws : list writer) (s : State) : Prop :=
  forall w, In w ws ->
    exists rest,
      In (EvWrite w (tag_of level ++ rest)%string)
         (events_since s (state_of (output E l level depth txt s))).

(** Two Close calls in a row release no endpoint more than once. *)
Definition closes_at_most_once (E : Env) (l : nat) (s : State) : Prop :=
  forall c,
    (close_count c
       (events_since s
          (state_of ((Logger_Close E l ;;; Logger_Close E l) s))) <= 1)%nat.


(** An emission on a closed Logger panics. *)
Definition panics {A} (o : outcome A) : Prop :=
  match o with
  | Panic _ _ => True
  | _ => False
  end.

(** ** Sample collaborators *)

Definition render (v : value) : string :=
  match v with
  | VString s => s
  | VInt _ => "#"
  | VError e => e
  end.

(** Every destination takes every write and closes cleanly; the system log
    can be reached. *)
Definition quiet : Env :=
  {| Write_res := fun _ _ p => (len p, None);
     Close_res := fun _ _ => None;
     syslog_New_res := fun _ _ _ => None;
     Sprint := fun v => String.concat EmptyString (map render v);
     Sprintln := fun v => (String.concat " " (map render v) ++ nl)%string;
     Sprintf := fun f _ => f;
     stamp := fun _ _ => EmptyString |}.

(** As [quiet], but the system log cannot be reached. *)
Definition no_syslog : Env :=
  {| Write_res := Write_res quiet;
     Close_res := Close_res quiet;
     syslog_New_res := fun _ _ _ => Some "dial unix /dev/log: no such file";
     Sprint := Sprint quiet;
     Sprintln := Sprintln quiet;
     Sprintf := Sprintf quiet;
     stamp := stamp quiet |}.

(** As [quiet], but writes to the caller object 0 fail. *)
Definition bad_sink : Env :=
  {| Write_res := fun _ w p =>
       match w with
       | Obj 0 _ => (0, Some "disk full")
       | _ => (len p, None)
       end;
     Close_res := Close_res quiet;
     syslog_New_res := syslog_New_res quiet;
     Sprint := Sprint quiet;
     Sprintln := Sprintln quiet;
     Sprintf := Sprintf quiet;
     stamp := stamp quiet |}.

(** The header that Go's [log] package makes from the flag bits, on
    31 October 2026 at nine o'clock, for a caller at line 7 of
    [/app/main.go]. *)
Definition header_at_nine (fl : Z) : string :=
  ((if Z.testbit fl 0 then "2026/10/31 " else EmptyString)
   ++ (if Z.testbit fl 1 || Z.testbit fl 2
       then "09:00:00"
            ++ (if Z.testbit fl 2 then ".000000" else EmptyString) ++ " "
       else EmptyString)
   ++ (if Z.testbit fl 4 then "main.go:7: "
       else if Z.testbit fl 3 then "/app/main.go:7: "
       else EmptyString))%string.

(** As [quiet], but the header of a line shows what the flags ask for. *)
Definition dated : Env :=
  {| Write_res := Write_res quiet;
     Close_res := Close_res quiet;
     syslog_New_res := syslog_New_res quiet;
     Sprint := Sprint quiet;
     Sprintln := Sprintln quiet;
     Sprintf := Sprintf quiet;
     stamp := fun fl _ => header_at_nine fl |}.

(** A first call of Init without the system log, then a call that asks
    for it. *)
Definition plain_then_syslog : list call :=
  [ {| c_name := "app"; c_verbose := false; c_systemLog := false;
       c_logFile := Obj 0 false |};
    {| c_name := "lib"; c_verbose := false; c_systemLog := true;
       c_logFile := Obj 1 false |} ].

(** The state after one call [Init("app", verbose, systemLog, logFile)]
    made first thing in [main]; the new Logger is at address 1. *)
Definition started (E : Env) (verbose systemLog : bool) (logFile : writer)
  : State :=
  state_of (Init E "app" verbose systemLog logFile start).

(** Two calls of Init, one after the other. *)
Definition two_calls : list call :=
  [ {| c_name := "app"; c_verbose := false; c_systemLog := true;
       c_logFile := Obj 0 true |};
    {| c_name := "lib"; c_verbose := true; c_systemLog := false;
       c_logFile := Obj 1 false |} ].

(** The Logger that [Init("app", false, false, logFile)] builds. *)
Definition plain_Logger (logFile : writer) : Logger :=
  new_Logger false logFile Nil Nil Nil.

Unset Implicit Arguments.

(** ** SetFlags *)

Definition set_heap (h : list Logger) (s : State) : State :=
  {| heap := h; defaultLogger := defaultLogger s; logLock := logLock s;
     sys_next := sys_next s; events := events s |}.

(** [*p = L] for a [*Logger] that points into the heap. *)
Definition store (p : nat) (L : Logger) : M unit :=
  fun s => Ret tt (set_heap (firstn p (heap s) ++ L :: skipn (S p) (heap s)) s).

(** [log.Logger.SetFlags]. *)
Definition log_SetFlags (lg : log_Logger) (fl : Z) : log_Logger :=
  {| out := out lg; prefix := prefix lg; flag := fl |}.

(** One statement [defaultLogger.logX.SetFlags(flag)]: the Logger in the
    slot is read and the [log.Logger] it points to is changed in place. *)
Definition on_default_logger (f : Logger -> Logger) : M unit :=
  on_default (fun d => L <- load d ;; store d (f L)).

(** [func SetFlags], lines 309-315.  It does not take [logLock]. *)
Definition SetFlags (fl : Z) : M unit :=
  on_default_logger (fun L =>
    {| logFatal := logFatal L; logError := logError L; logWarn := logWarn L;
       logInfo := logInfo L; logTrace := log_SetFlags (logTrace L) fl;
       closers := closers L; initialized := initialized L |}) ;;;
  on_default_logger (fun L =>
    {| logFatal := logFatal L; logError := logError L; logWarn := logWarn L;
       logInfo := log_SetFlags (logInfo L) fl; logTrace := logTrace L;
       closers := closers L; initialized := initialized L |}) ;;;
  on_default_logger (fun L =>
    {| logFatal := logFatal L; logError := logError L;
       logWarn := log_SetFlags (logWarn L) fl;
       logInfo := logInfo L; logTrace := logTrace L;
       closers := closers L; initialized := initialized L |}) ;;;
  on_default_logger (fun L =>
    {| logFatal := logFatal L; logError := log_SetFlags (logError L) fl;
       logWarn := logWarn L; logInfo := logInfo L; logTrace := logTrace L;
       closers := closers L; initialized := initialized L |}) ;;;
  on_default_logger (fun L =>
    {| logFatal := log_SetFlags (logFatal L) fl; logError := logError L;
       logWarn := logWarn L; logInfo := logInfo L; logTrace := logTrace L;
       closers := closers L; initialized := initialized L |}).

(** A Logger with the flags of its five [log.Logger]s set to [fl] and
    nothing else changed. *)
Definition with_flags (L : Logger) (fl : Z) : Logger :=
  {| logFatal := log_SetFlags (logFatal L) fl;
     logError := log_SetFlags (logError L) fl;
     logWarn := log_SetFlags (logWarn L) fl;
     logInfo := log_SetFlags (logInfo L) fl;
     logTrace := log_SetFlags (logTrace L) fl;
     closers := closers L;
     initialized := initialized L |}.

(** ** More vocabulary *)

(** The line of a Logger whose [log.Logger]s carry the flags [fl] and the
    tag [tag]: the tag leads unless [Lmsgprefix] is among the flags. *)
Definition flagged_line (E : Env) (fl : Z) (tag : string) (calldepth : Z)
  (txt : string) : string :=
  let head :=
    if Z.land fl Lmsgprefix =? 0
    then (tag ++ stamp E fl calldepth)%string
    else (stamp E fl calldepth ++ tag)%string in
  (head ++ txt ++ if ends_with_nl txt then EmptyString else nl)%string.

Definition is_syslog_New (e : event) : bool :=
  match e with
  | EvSyslogNew _ _ => true
  | _ => false
  end.

(** The three calls of [syslog.New] that [setup] makes, in order. *)
Definition setup_dials (src : string) : list event :=
  [EvSyslogNew (Z.lor LOG_USER LOG_NOTICE) src;
   EvSyslogNew (Z.lor LOG_USER LOG_WARNING) src;
   EvSyslogNew (Z.lor LOG_USER LOG_ERR) src].

(** A call came back, by return or by panic, with [logLock] free and with
    the Loggers, the slot and the platform writers as they were; the events
    it added are all of the kind [allowed]. *)
Definition came_back {A} (o : outcome A) (s : State) (allowed : event -> bool)
  : Prop :=
  match o with
  | Ret _ s' | Panic _ s' =>
      logLock s' = false /\ heap s' = heap s
      /\ defaultLogger s' = defaultLogger s /\ sys_next s' = sys_next s
      /\ exists es, events s' = events s ++ es /\ forallb allowed es = true
  | Block _ | Exit _ _ => False
  end.

(** A step returned or panicked and did nothing but add events of the
    kind [allowed]. *)
Definition grows {A} (allowed : event -> bool) (o : outcome A) (s : State)
  : Prop :=
  match o with
  | Ret _ s' | Panic _ s' =>
      exists es, s' = add_events es s /\ forallb allowed es = true
  | Block _ | Exit _ _ => False
  end.

Definition close_or_report (e : event) : bool :=
  match e with
  | EvClose _ | EvCloseFailed _ _ => true
  | _ => false
  end.

(** ** The event log adapter (xlog_windows.go) *)

Module Windows.

(** An [error] as the event log hands it out: a Windows error code
    ([syscall.Errno]) or any other error, kept by its message. *)
Inductive werror : Type :=
| Errno (code : Z)
| Failure (msg : string).

Definition ERROR_ACCESS_DENIED : werror := Errno 5.

Definition werror_eqb (a b : werror) : bool :=
  match a, b with
  | Errno x, Errno y => x =? y
  | Failure x, Failure y => String.eqb x y
  | _, _ => false
  end.

(** Event types of [eventlog]. *)
Definition Error_type : Z := 1.
Definition Warning_type : Z := 2.
Definition Info_type : Z := 4.

(** Calls into the event log, oldest first. *)
Inductive call : Type :=
| CInstall (src : string) (eventsSupported : Z)
| COpen (src : string)
| CReport (h : nat) (etype : Z) (eid : Z) (msg : string)
| CClose (h : nat).

(** What the event log answers, and the texts the package cannot know:
    the message of an error code and the [%v] rendering of a severity. *)
Record Env : Type := {
  install_res : list call -> string -> Z -> option werror;
  open_res : list call -> string -> option werror;
  report_res : list call -> nat -> Z -> Z -> string -> option werror;
  close_res : list call -> nat -> option werror;
  errno_text : Z -> string;
  severity_text : Z -> string
}.

(** The calls made so far and the number of the next log handle. *)
Record wstate : Type := {
  calls : list call;
  next_handle : nat
}.

Definition W (A : Type) : Type := wstate -> A * wstate.

Definition wret {A} (a : A) : W A := fun s => (a, s).

Definition wbind {A B} (c : W A) (k : A -> W B) : W B :=
  fun s => let (a, s1) := c s in k a s1.

(** [type writer struct], lines 11-15; [el] is the handle of the log. *)
Record writer : Type := {
  pri : Z;
  src : string;
  el : nat
}.

(** [strings.Contains]. *)
Fixpoint has_prefix (sub s : string) : bool :=
  match sub, s with
  | EmptyString, _ => true
  | String a sub', String b s' => Ascii.eqb a b && has_prefix sub' s'
  | String _ _, EmptyString => false
  end.

Fixpoint contains (s sub : string) : bool :=
  has_prefix sub s
  || match s with
     | EmptyString => false
     | String _ s' => contains s' sub
     end.

Section Adapter.

Variable E : Env.

(** The severities [sInfo], [sWarning] and [sError] are declared in a file
    of the package that is not at hand; they are taken as given. *)
Variables sInfo sWarning sError : Z.

Definition Error_text (err : werror) : string :=
  match err with
  | Errno c => errno_text E c
  | Failure m => m
  end.

Definition record_call (c : call) (s : wstate) : wstate :=
  {| calls := calls s ++ [c]; next_handle := next_handle s |}.

(** [l.Info(eid, msg)], [l.Warning(eid, msg)], [l.Error(eid, msg)]. *)
Definition report (h : nat) (etype eid : Z) (msg : string)
  : W (option werror) :=
  fun s => (report_res E (calls s) h etype eid msg,
            record_call (CReport h etype eid msg) s).

(** [func (w *writer) Write], lines 18-28. *)
Definition Write (w : writer) (b : string) : W (Z * option werror) :=
  if pri w =? sInfo
  then wbind (report (el w) Info_type 1 b) (fun r => wret (len b, r))
  else if pri w =? sWarning
  then wbind (report (el w) Warning_type 3 b) (fun r => wret (len b, r))
  else if pri w =? sError
  then wbind (report (el w) Error_type 2 b) (fun r => wret (len b, r))
  else wret (0, Some (Failure ("unrecognized severity: "
                               ++ severity_text E (pri w))%string)).

(** [func (w *writer) Close], lines 30-32. *)
Definition Close (w : writer) : W (option werror) :=
  fun s => (close_res E (calls s) (el w), record_call (CClose (el w)) s).

Definition InstallAsEventCreate (name : string) (eventsSupported : Z)
  : W (option werror) :=
  fun s => (install_res E (calls s) name eventsSupported,
            record_call (CInstall name eventsSupported) s).

(** [eventlog.Open]: a new handle, or an error. *)
Definition Open (name : string) : W (nat + werror) :=
  fun s =>
    match open_res E (calls s) name with
    | Some err => (inr err, record_call (COpen name) s)
    | None =>
        (inl (next_handle s),
         {| calls := calls s ++ [COpen name];
            next_handle := S (next_handle s) |})
    end.

(** [func newW], lines 34-52. *)
Definition newW (p : Z) (name : string) : W (option writer * option werror) :=
  wbind (InstallAsEventCreate name
           (Z.lor (Z.lor Info_type Warning_type) Error_type))
    (fun r =>
       let open_it :=
         wbind (Open name) (fun o =>
           match o with
           | inr err => wret (None, Some err)
           | inl h => wret (Some {| pri := p; src := name; el := h |}, None)
           end) in
       match r with
       | Some err =>
           if negb (contains (Error_text err) "registry key already exists")
              && negb (werror_eqb err ERROR_ACCESS_DENIED)
           then wret (None, Some err)
           else open_it
       | None => open_it
       end).

(** [func setup], lines 54-68. *)
Definition setup (name : string)
  : W (option writer * option writer * option writer * option werror) :=
  wbind (newW sInfo name) (fun r1 =>
    match snd r1 with
    | Some err => wret (None, None, None, Some err)
    | None =>
        wbind (newW sWarning name) (fun r2 =>
          match snd r2 with
          | Some err => wret (None, None, None, Some err)
          | None =>
              wbind (newW sError name) (fun r3 =>
                match snd r3 with
                | Some err => wret (None, None, None, Some err)
                | None => wret (fst r1, fst r2, fst r3, None)
                end)
          end)
    end).

End Adapter.

Definition is_close_call (c : call) : bool :=
  match c with
  | CClose _ => true
  | _ => false
  end.

Definition is_open_call (c : call) : bool :=
  match c with
  | COpen _ => true
  | _ => false
  end.

(** The install error is one that [newW] passes over. *)
Definition tolerated (E : Env) (err : werror) : Prop :=
  (exists a b,
     Error_text E err = (a ++ "registry key already exists" ++ b)%string)
  \/ err = ERROR_ACCESS_DENIED.

(** The event types a source is registered for. *)
Definition events_supported : Z :=
  Z.lor (Z.lor Info_type Warning_type) Error_type.

(** What [newW] does once it goes on to open the log. *)
Definition opened (E : Env) (p : Z) (name : string) (s : wstate)
  (r : option writer * option werror) (s' : wstate) : Prop :=
  calls s' = calls s ++ [CInstall name events_supported; COpen name]
  /\ match open_res E (calls s ++ [CInstall name events_supported]) name with
     | None =>
         r = (Some {| pri := p; src := name; el := next_handle s |}, None)
         /\ next_handle s' = S (next_handle s)
     | Some e => r = (None, Some e) /\ next_handle s' = next_handle s
     end.

(** The error [newW] ends in after the calls [hist], if any: the error of
    the registration when it is not one to pass over, else the error of
    the opening. *)
Definition newW_error (E : Env) (hist : list call) (name : string)
  : option werror :=
  match install_res E hist name events_supported with
  | Some err =>
      if negb (contains (Error_text E err) "registry key already exists")
         && negb (werror_eqb err ERROR_ACCESS_DENIED)
      then Some err
      else open_res E (hist ++ [CInstall name events_supported]) name
  | None => open_res E (hist ++ [CInstall name events_supported]) name
  end.

(** The two calls of a [newW] that got its log. *)
Definition newW_calls (name : string) : list call :=
  [CInstall name events_supported; COpen name].

(** The calls of [s'] that came after [s]. *)
Definition calls_since (s s' : wstate) : list call :=
  skipn (List.length (calls s)) (calls s').

(** A sample event log: the source is already registered, so every install
    reports that, and the log opens. *)
Definition registered : Env :=
  {| install_res := fun _ name _ =>
       Some (Failure ("EventLog/Application/" ++ name
                      ++ " registry key already exists")%string);
     open_res := fun _ _ => None;
     report_res := fun _ _ _ _ _ => None;
     close_res := fun _ _ => None;
     errno_text := fun _ => "error";
     severity_text := fun _ => "?" |}.

Definition wstart : wstate := {| calls := []; next_handle := 0 |}.

End Windows.

Unset Implicit Arguments.

(** ** Facts about states and the monad *)

Lemma add_events_nil (s : State) : add_events [] s = s.
Proof. destruct s; unfold add_events; simpl. now rewrite app_nil_r. Qed.

Lemma add_events_app (es1 es2 : list event) (s : State) :
  add_events es2 (add_events es1 s) = add_events (es1 ++ es2) s.
Proof. unfold add_events; simpl. now rewrite app_assoc. Qed.

Lemma events_since_add_events (es : list event) (s : State) :
  events_since s (add_events es s) = es.
Proof.
  unfold events_since, add_events; simpl.
  rewrite skipn_app, skipn_all, Nat.sub_diag. reflexivity.
Qed.

Lemma Unlock_add_events (es : list event) (s : State) :
  logLock s = false ->
  Unlock (add_events es (set_logLock true s)) = add_events es s.
Proof. destruct s; simpl; intros ->; reflexivity. Qed.

Lemma close_count_app (c : writer) (es1 es2 : list event) :
  close_count c (es1 ++ es2) = (close_count c es1 + close_count c es2)%nat.
Proof. unfold close_count. now rewrite filter_app, length_app. Qed.

Section Facts.

Variable E : Env.

(** ** The fan-out write *)

Lemma writer_Write_live (w : writer) (p : string) (s : State) :
  live w = true ->
  writer_Write E w p s
  = Ret (Write_res E (events s) w p) (add_events [EvWrite w p] s).
Proof. unfold writer_Write; intros ->; reflexivity. Qed.

Lemma multiWriter_Write_live (ws : list writer) (p : string) :
  all_live ws ->
  forall s, exists k r,
    multiWriter_Write E ws p s = Ret r (add_events (writes (firstn k ws) p) s)
    /\ stopped_at_first_failure E (events s) ws p k
    /\ (all_writes_ok E (events s) ws p ->
        k = List.length ws /\ r = (len p, None)).
Proof.
  induction 1 as [|w ws Hw Hws IH]; intros s.
  - exists 0%nat, (len p, None). simpl. rewrite add_events_nil.
    unfold stopped_at_first_failure. simpl.
    repeat split; try lia; try congruence.
  - cbn [multiWriter_Write]. unfold bind at 1.
    rewrite writer_Write_live by exact Hw.
    assert (Hfail : write_ok E (events s) w p = false ->
      forall r : Z * option error, exists k r0,
        Ret r (add_events [EvWrite w p] s)
        = Ret r0 (add_events (writes (firstn k (w :: ws)) p) s)
        /\ stopped_at_first_failure E (events s) (w :: ws) p k
        /\ (all_writes_ok E (events s) (w :: ws) p ->
            k = List.length (w :: ws) /\ r0 = (len p, None))).
    { intros Hbad r. exists 1%nat, r. split; [reflexivity |]. split.
      - unfold stopped_at_first_failure; simpl. repeat split; try lia.
        intros _. exists w. rewrite app_nil_r. auto.
      - intros Hall. specialize (Hall 0%nat w eq_refl). simpl in Hall.
        rewrite app_nil_r in Hall. congruence. }
    pose proof Hfail as Hf. unfold write_ok in Hf.
    destruct (snd (Write_res E (events s) w p)) as [e|] eqn:Herr.
    + apply Hf. reflexivity.
    + destruct (fst (Write_res E (events s) w p) =? len p) eqn:Hn.
      * clear Hf Hfail.
        destruct (IH (add_events [EvWrite w p] s))
          as (k & r & Hrun & (Hle & Hpos & Hbefore & Hlast) & Hfull).
        exists (S k), r. rewrite Hrun, add_events_app.
        assert (Hhist : forall i,
          events (add_events [EvWrite w p] s) ++ writes (firstn i ws) p
          = events s ++ writes (firstn (S i) (w :: ws)) p).
        { intros i. simpl. now rewrite <- app_assoc. }
        assert (Hok : write_ok E (events s) w p = true).
        { unfold write_ok. now rewrite Herr, Hn. }
        split; [reflexivity |]. split; [repeat split |].
        -- simpl. lia.
        -- lia.
        -- intros [|i] w0 Hi Hnth.
           ++ simpl in Hnth. injection Hnth as <-. simpl. now rewrite app_nil_r.
           ++ simpl in Hnth. rewrite <- Hhist. apply Hbefore; [lia | assumption].
        -- intros Hlt. simpl in Hlt.
           assert (Hne : ws <> []) by (destruct ws; simpl in *; [lia | congruence]).
           specialize (Hpos Hne).
           destruct Hlast as (w0 & Hnth & Hbad); [lia |].
           exists w0. destruct k as [|k]; [lia |].
           simpl in Hnth, Hbad. rewrite Nat.sub_0_r in Hnth, Hbad.
           replace (S (S k) - 1)%nat with (S k) by lia.
           split; [exact Hnth |]. rewrite <- Hhist. exact Hbad.
        -- intros Hall.
           destruct Hfull as [-> ->].
           ++ intros i w0 Hnth. rewrite Hhist. apply (Hall (S i)). exact Hnth.
           ++ split; reflexivity.
      * apply Hf. reflexivity.
Qed.

Lemma sink_Write_live (o : sink) (p : string) (s : State) :
  all_live (sink_writers o) ->
  exists k r,
    sink_Write E o p s
    = Ret r (add_events (writes (firstn k (sink_writers o)) p) s)
    /\ stopped_at_first_failure E (events s) (sink_writers o) p k
    /\ (all_writes_ok E (events s) (sink_writers o) p ->
        k = List.length (sink_writers o)).
Proof.
  destruct o as [w | ws]; simpl; intros Hl.
  - inversion_clear Hl as [|? ? Hw _].
    exists 1%nat, (Write_res E (events s) w p).
    rewrite writer_Write_live by exact Hw.
    split; [reflexivity |]. split; [| reflexivity].
    unfold stopped_at_first_failure; simpl. repeat split; try lia.
  - destruct (multiWriter_Write_live ws p Hl s) as (k & r & Hrun & Hstop & Hfull).
    exists k, r. split; [exact Hrun |]. split; [exact Hstop |].
    intros Hall. now apply Hfull.
Qed.

(** ** output *)

Lemma level_logger_cases (L : Logger) (level : log_level) (lg : log_Logger) :
  level_logger L level = Some lg ->
  (level = eTrace /\ lg = logTrace L) \/ (level = eInfo /\ lg = logInfo L)
  \/ (level = eWarn /\ lg = logWarn L) \/ (level = eError /\ lg = logError L)
  \/ (level = eFatal /\ lg = logFatal L).
Proof.
  unfold level_logger.
  repeat match goal with
         | |- context [?a =? ?b] => destruct (Z.eqb_spec a b)
         end; intros H; inversion H; subst; tauto.
Qed.

Lemma output_live (l : nat) (L : Logger) (lg : log_Logger)
  (level : log_level) (depth : Z) (txt : string) (s : State) :
  logLock s = false ->
  nth_error (heap s) l = Some L ->
  level_logger L level = Some lg ->
  all_live (sink_writers (out lg)) ->
  exists k,
    output E l level depth txt s
    = Ret tt (add_events
                (writes (firstn k (sink_writers (out lg)))
                        (log_line E lg (3 + depth) txt)) s)
    /\ stopped_at_first_failure E (events s) (sink_writers (out lg))
         (log_line E lg (3 + depth) txt) k
    /\ (all_writes_ok E (events s) (sink_writers (out lg))
          (log_line E lg (3 + depth) txt) ->
        k = List.length (sink_writers (out lg))).
Proof.
  intros Hlock Hl Hlg Hlive.
  destruct (sink_Write_live (out lg) (log_line E lg (3 + depth) txt)
              (set_logLock true s) Hlive) as (k & r & Hrun & Hstop & Hfull).
  exists k. split; [| split; assumption].
  assert (Hout : (log_Output E lg (3 + depth) txt ;;; ret tt)
                   (set_logLock true s)
                 = Ret tt (add_events
                     (writes (firstn k (sink_writers (out lg)))
                             (log_line E lg (3 + depth) txt))
                     (set_logLock true s))).
  { unfold log_Output, bind. rewrite Hrun. reflexivity. }
  unfold output, locked, Lock. rewrite Hlock.
  unfold bind at 1. unfold load. cbn [heap set_logLock]. rewrite Hl.
  destruct (level_logger_cases _ _ _ Hlg)
    as [[-> ->] | [[-> ->] | [[-> ->] | [[-> ->] | [-> ->]]]]];
    cbn [Z.eqb eTrace eInfo eWarn eError eFatal Pos.eqb];
    rewrite Hout, Unlock_add_events by exact Hlock; reflexivity.
Qed.

(** ** Close *)

Lemma close_all_live (cs : list writer) :
  all_live cs ->
  forall s, exists es,
    close_all E cs s = Ret tt (add_events es s)
    /\ (forall c, close_count c es = count_occ writer_eq_dec cs c)
    /\ filter is_write es = [].
Proof.
  induction 1 as [|c cs Hc Hcs IH]; intros s.
  - exists []. simpl. rewrite add_events_nil. auto.
  - cbn [close_all]. unfold bind at 1. unfold closer_Close. rewrite Hc.
    assert (Hcount : forall c0 tl,
      close_count c0 (EvClose c :: tl)
      = ((if writer_eq_dec c c0 then 1 else 0) + close_count c0 tl)%nat).
    { intros c0 tl. unfold close_count. simpl.
      destruct (writer_eq_dec c0 c), (writer_eq_dec c c0);
        subst; simpl; congruence. }
    destruct (Close_res E (events s) c) as [err|].
    + destruct (IH (add_events [EvCloseFailed c err] (add_events [EvClose c] s)))
        as (es & Hrun & Hn & Hw).
      exists (EvClose c :: EvCloseFailed c err :: es).
      unfold bind, emit, add_event. rewrite Hrun.
      rewrite !add_events_app. split; [reflexivity |]. split.
      * intros c0. rewrite Hcount. simpl count_occ.
        change (close_count c0 (EvCloseFailed c err :: es))
          with (close_count c0 es).
        rewrite Hn. destruct (writer_eq_dec c c0); reflexivity.
      * simpl. exact Hw.
    + destruct (IH (add_events [EvClose c] s)) as (es & Hrun & Hn & Hw).
      exists (EvClose c :: es). unfold add_event. rewrite Hrun.
      rewrite add_events_app. split; [reflexivity |]. split.
      * intros c0. rewrite Hcount. simpl count_occ. rewrite Hn.
        destruct (writer_eq_dec c c0); reflexivity.
      * simpl. exact Hw.
Qed.

Lemma Logger_Close_live (l : nat) (L : Logger) (s : State) :
  logLock s = false ->
  nth_error (heap s) l = Some L ->
  all_live (closers L) ->
  exists es,
    Logger_Close E l s = Ret tt (add_events es s)
    /\ (forall c, close_count c es
                  = if initialized L
                    then count_occ writer_eq_dec (closers L) c else 0%nat)
    /\ filter is_write es = [].
Proof.
  intros Hlock Hl Hlive.
  unfold Logger_Close, locked, Lock. rewrite Hlock.
  unfold bind at 1. unfold load. cbn [heap set_logLock]. rewrite Hl.
  destruct (initialized L); cbn [negb].
  - destruct (close_all_live _ Hlive (set_logLock true s)) as (es & Hrun & Hn & Hw).
    exists es. rewrite Hrun, Unlock_add_events by exact Hlock. auto.
  - exists []. unfold ret. rewrite add_events_nil.
    split; [| auto].
    f_equal. destruct s; simpl in *; subst; reflexivity.
Qed.

(** ** Init *)

Lemma Init_setup_cases (name : string) (systemLog : bool) (s : State) :
  exists il wl el e s1 es,
    Init_setup E name systemLog s = Ret (il, wl, el, e) s1
    /\ heap s1 = heap s
    /\ defaultLogger s1 = defaultLogger s
    /\ logLock s1 = logLock s
    /\ events s1 = events s ++ es
    /\ filter is_write es = []
    /\ ((systemLog = false /\ e = None /\ il = Nil /\ wl = Nil /\ el = Nil
         /\ sys_next s1 = sys_next s)
        \/ (systemLog = true /\ e = None
            /\ il = Sys (Some (sys_next s))
            /\ wl = Sys (Some (S (sys_next s)))
            /\ el = Sys (Some (S (S (sys_next s))))
            /\ sys_next s1 = S (S (S (sys_next s))))
        \/ (systemLog = true /\ e <> None
            /\ il = Sys None /\ wl = Sys None /\ el = Sys None)).
Proof.
  destruct systemLog; cbn [Init_setup].
  - unfold setup, bind, syslog_New, ret, add_event; cbn [snd fst].
    destruct (syslog_New_res E (events s) (Z.lor LOG_USER LOG_NOTICE) name)
      as [e1|]; cbn [snd fst events add_events bump_sys].
    { do 5 eexists. exists [EvSyslogNew (Z.lor LOG_USER LOG_NOTICE) name].
      split; [reflexivity |]. cbn. repeat split.
      right; right. repeat split. discriminate. }
    destruct (syslog_New_res E _ (Z.lor LOG_USER LOG_WARNING) name)
      as [e2|]; cbn [snd fst events add_events bump_sys].
    { do 5 eexists.
      exists [EvSyslogNew (Z.lor LOG_USER LOG_NOTICE) name;
              EvSyslogNew (Z.lor LOG_USER LOG_WARNING) name].
      split; [reflexivity |]. cbn. rewrite <- app_assoc. repeat split.
      right; right. repeat split. discriminate. }
    destruct (syslog_New_res E _ (Z.lor LOG_USER LOG_ERR) name)
      as [e3|]; cbn [snd fst events add_events bump_sys].
    { do 5 eexists.
      exists [EvSyslogNew (Z.lor LOG_USER LOG_NOTICE) name;
              EvSyslogNew (Z.lor LOG_USER LOG_WARNING) name;
              EvSyslogNew (Z.lor LOG_USER LOG_ERR) name].
      split; [reflexivity |]. cbn. rewrite <- !app_assoc. repeat split.
      right; right. repeat split. discriminate. }
    do 5 eexists.
    exists [EvSyslogNew (Z.lor LOG_USER LOG_NOTICE) name;
            EvSyslogNew (Z.lor LOG_USER LOG_WARNING) name;
            EvSyslogNew (Z.lor LOG_USER LOG_ERR) name].
    split; [reflexivity |]. cbn. rewrite <- !app_assoc. repeat split.
    right; left. repeat split.
  - exists Nil, Nil, Nil, None, s, []. rewrite app_nil_r. cbn.
    repeat split. left. repeat split.
Qed.

Lemma Init_eval (name : string) (verbose systemLog : bool) (logFile : writer)
  (s s1 : State) (il wl el : writer) (e : option error) (d : Logger) :
  Init_setup E name systemLog s = Ret (il, wl, el, e) s1 ->
  logLock s1 = false ->
  nth_error (heap s1) (defaultLogger s1) = Some d ->
  Init E name verbose systemLog logFile s
  = match e with
    | None =>
        Ret (List.length (heap s1))
            (after_Init (new_Logger verbose logFile il wl el)
                        (initialized d) false s1)
    | Some _ =>
        Block (after_Init (new_Logger verbose logFile il wl el)
                          (initialized d) true s1)
    end.
Proof.
  intros Hsetup Hlock Hd.
  assert (Hlt : (defaultLogger s1 < List.length (heap s1))%nat).
  { apply nth_error_Some. congruence. }
  unfold Init, bind at 1. rewrite Hsetup.
  unfold bind at 1. unfold alloc, locked, Lock.
  cbn [logLock push_Logger]. rewrite Hlock.
  unfold bind at 1. unfold on_default, load.
  cbn [heap defaultLogger set_logLock].
  unfold push_Logger at 1 2. cbn [heap defaultLogger].
  rewrite nth_error_app1, Hd by exact Hlt.
  unfold bind, ret, Error, on_default, output, locked, Lock.
  destruct s1 as [hp dl lk sn ev]; cbn in Hlock; subst lk.
  destruct (initialized d), e; reflexivity.
Qed.

Lemma Init_locked (name : string) (verbose systemLog : bool)
  (logFile : writer) (s : State) :
  logLock s = true ->
  exists s', Init E name verbose systemLog logFile s = Block s'.
Proof.
  intros Hlock.
  destruct (Init_setup_cases name systemLog s)
    as (il & wl & el & e & s1 & es & Hsetup & _ & _ & Hl & _).
  unfold Init, bind at 1. rewrite Hsetup. unfold bind at 1.
  unfold alloc, locked, Lock, push_Logger. cbn [logLock].
  rewrite Hl, Hlock. eexists. reflexivity.
Qed.

(** What is known when Init has returned. *)
Lemma Init_Ret_inv (name : string) (verbose systemLog : bool)
  (logFile : writer) (s : State) (d : Logger) (p : nat) (s' : State) :
  nth_error (heap s) (defaultLogger s) = Some d ->
  Init E name verbose systemLog logFile s = Ret p s' ->
  exists il wl el s1 es,
    Init_setup E name systemLog s = Ret (il, wl, el, None) s1
    /\ logLock s = false
    /\ p = List.length (heap s)
    /\ s' = after_Init (new_Logger verbose logFile il wl el)
                       (initialized d) false s1
    /\ heap s1 = heap s
    /\ defaultLogger s1 = defaultLogger s
    /\ events s1 = events s ++ es
    /\ filter is_write es = []
    /\ ((systemLog = false /\ il = Nil /\ wl = Nil /\ el = Nil
         /\ sys_next s1 = sys_next s)
        \/ (systemLog = true
            /\ il = Sys (Some (sys_next s))
            /\ wl = Sys (Some (S (sys_next s)))
            /\ el = Sys (Some (S (S (sys_next s))))
            /\ sys_next s1 = S (S (S (sys_next s))))).
Proof.
  intros Hd Hrun.
  destruct (logLock s) eqn:Hlock.
  { destruct (Init_locked name verbose systemLog logFile s Hlock) as [s0 H0].
    congruence. }
  destruct (Init_setup_cases name systemLog s)
    as (il & wl & el & e & s1 & es & Hsetup & Hh & Hdl & Hl & Hev & Hw & Hcase).
  assert (Hd1 : nth_error (heap s1) (defaultLogger s1) = Some d)
    by (rewrite Hh, Hdl; exact Hd).
  assert (Hl1 : logLock s1 = false) by congruence.
  rewrite (Init_eval name verbose systemLog logFile s s1 il wl el e d
             Hsetup Hl1 Hd1) in Hrun.
  destruct e as [err|]; [discriminate |].
  injection Hrun as <- <-.
  exists il, wl, el, s1, es.
  repeat (split; [first [assumption | reflexivity | now rewrite Hh] |]).
  destruct Hcase as [H | [H | H]].
  - left. tauto.
  - right. tauto.
  - destruct H as (_ & Hne & _). congruence.
Qed.

(** Init returns when [logLock] is free and the system log, if asked for,
    can be reached. *)
Lemma Init_returns (name : string) (verbose systemLog : bool)
  (logFile : writer) (s : State) (d : Logger) :
  logLock s = false ->
  nth_error (heap s) (defaultLogger s) = Some d ->
  (systemLog = true ->
   forall hist priority, syslog_New_res E hist priority name = None) ->
  exists p s',
    Init E name verbose systemLog logFile s = Ret p s' /\ logLock s' = false.
Proof.
  intros Hlock Hd Hsys.
  assert (Hsetup : exists il wl el s1,
    Init_setup E name systemLog s = Ret (il, wl, el, None) s1
    /\ heap s1 = heap s /\ defaultLogger s1 = defaultLogger s
    /\ logLock s1 = logLock s).
  { destruct systemLog; cbn [Init_setup].
    - specialize (Hsys eq_refl).
      unfold setup, bind, syslog_New, ret. rewrite Hsys. cbn [snd fst].
      cbn [events add_event add_events bump_sys]. rewrite Hsys. cbn [snd fst].
      cbn [events add_event add_events bump_sys]. rewrite Hsys. cbn [snd fst].
      do 4 eexists. split; [reflexivity |]. cbn. auto.
    - exists Nil, Nil, Nil, s. auto. }
  destruct Hsetup as (il & wl & el & s1 & Hsetup & Hh & Hdl & Hl).
  assert (Hd1 : nth_error (heap s1) (defaultLogger s1) = Some d)
    by (rewrite Hh, Hdl; exact Hd).
  assert (Hl1 : logLock s1 = false) by congruence.
  rewrite (Init_eval name verbose systemLog logFile s s1 il wl el None d
             Hsetup Hl1 Hd1).
  do 2 eexists. split; reflexivity.
Qed.

End Facts.

(** ** The properties of the specification *)

Section Claims.

Variable E : Env.

Lemma nth_error_snoc {A} (l : list A) (x : A) :
  nth_error (l ++ [x]) (List.length l) = Some x.
Proof. rewrite nth_error_app2, Nat.sub_diag by lia. reflexivity. Qed.

(** Whatever becomes of a call of Init, the Logger it builds from what
    [setup] gave is at the next free address. *)
Lemma Init_builds_new_Logger (name : string) (verbose systemLog : bool)
  (logFile : writer) (s : State) :
  exists il wl el e s1,
    Init_setup E name systemLog s = Ret (il, wl, el, e) s1
    /\ nth_error
         (heap (state_of (Init E name verbose systemLog logFile s)))
         (List.length (heap s))
       = Some (new_Logger verbose logFile il wl el)
    /\ (forall p s', Init E name verbose systemLog logFile s = Ret p s' ->
          p = List.length (heap s)).
Proof.
  destruct (Init_setup_cases E name systemLog s)
    as (il & wl & el & e & s1 & es & Hsetup & Hheap & _ & _ & _ & _ & Hcase).
  exists il, wl, el, e, s1. split; [exact Hsetup |].
  assert (Hrun : forall o, o = Init E name verbose systemLog logFile s ->
                 heap (state_of o)
                 = heap s1 ++ [new_Logger verbose logFile il wl el]
                 /\ forall p s', o = Ret p s' -> p = List.length (heap s1)).
  { intros o Ho. unfold Init, bind at 1 in Ho. rewrite Hsetup in Ho.
    unfold bind at 1 in Ho. unfold alloc, locked, Lock in Ho.
    clear Hsetup Hcase. destruct s1 as [hp dl lk sn ev].
    cbn [logLock push_Logger heap defaultLogger sys_next events] in *.
    destruct lk.
    - subst o. cbn. split; [reflexivity | discriminate].
    - unfold bind at 1 in Ho.
      unfold on_default, load, push_Logger, set_logLock in Ho.
      cbn [heap defaultLogger logLock sys_next events] in Ho.
      destruct (nth_error (hp ++ [new_Logger verbose logFile il wl el]) dl)
        as [d|] eqn:Hd.
      + unfold bind, ret, Error, on_default, output, locked, Lock in Ho.
        destruct (initialized d), e; subst o; cbn;
          (split; [reflexivity | intros p s' H; inversion H; reflexivity]).
      + subst o. cbn. split; [reflexivity | discriminate]. }
  rewrite Hheap in Hrun.
  destruct (Hrun _ eq_refl) as [Hh Hp]. rewrite Hh.
  split; [apply nth_error_snoc | exact Hp].
Qed.

(** X17.  On a call of Init whose [setup] did not fail, the endpoint
    lists of the Logger it builds are as follows.  With the system log off: Error and Fatal write to
    [logFile] and [os.Stderr]; Warning, Info and Trace to [logFile], and to
    [os.Stdout] exactly when [verbose].  With the system log on, the writer
    opened at user.err comes between [logFile] and [os.Stderr] for Error
    and Fatal, the one opened at user.warning follows [logFile] for
    Warning, and the one opened at user.notice follows it for Info and
    Trace. *)
Theorem Init_lists_without_failure (name : string) (verbose systemLog : bool)
  (logFile il wl el : writer) (s s1 : State) :
  Init_setup E name systemLog s = Ret (il, wl, el, None) s1 ->
  exists L,
    nth_error (heap (state_of (Init E name verbose systemLog logFile s)))
      (List.length (heap s)) = Some L
    /\ ((systemLog = false
         /\ out (logError L) = SMulti [logFile; Stderr]
         /\ out (logFatal L) = SMulti [logFile; Stderr]
         /\ out (logWarn L)
            = SMulti ([logFile] ++ if verbose then [Stdout] else [])
         /\ out (logInfo L)
            = SMulti ([logFile] ++ if verbose then [Stdout] else [])
         /\ out (logTrace L)
            = SMulti ([logFile] ++ if verbose then [Stdout] else []))
        \/ (systemLog = true
            /\ events s1
               = events s
                 ++ [EvSyslogNew (Z.lor LOG_USER LOG_NOTICE) name;
                     EvSyslogNew (Z.lor LOG_USER LOG_WARNING) name;
                     EvSyslogNew (Z.lor LOG_USER LOG_ERR) name]
            /\ il = Sys (Some (sys_next s))
            /\ wl = Sys (Some (S (sys_next s)))
            /\ el = Sys (Some (S (S (sys_next s))))
            /\ out (logError L) = SMulti [logFile; el; Stderr]
            /\ out (logFatal L) = SMulti [logFile; el; Stderr]
            /\ out (logWarn L)
               = SMulti ([logFile; wl] ++ if verbose then [Stdout] else [])
            /\ out (logInfo L)
               = SMulti ([logFile; il] ++ if verbose then [Stdout] else [])
            /\ out (logTrace L)
               = SMulti ([logFile; il] ++ if verbose then [Stdout] else []))).
Proof.
  intros Hsetup.
  destruct (Init_builds_new_Logger name verbose systemLog logFile s)
    as (il' & wl' & el' & e' & s1' & Hsetup' & Hat & _).
  rewrite Hsetup in Hsetup'. injection Hsetup' as <- <- <- <- <-.
  eexists. split; [exact Hat |].
  destruct systemLog; cbn [Init_setup] in Hsetup.
  - right. split; [reflexivity |].
    unfold setup, bind, syslog_New, ret, add_event in Hsetup;
      cbn [snd fst] in Hsetup.
    destruct (syslog_New_res E (events s) (Z.lor LOG_USER LOG_NOTICE) name);
      cbn [snd fst events add_events bump_sys sys_next] in Hsetup;
      [discriminate |].
    destruct (syslog_New_res E _ (Z.lor LOG_USER LOG_WARNING) name);
      cbn [snd fst events add_events bump_sys sys_next] in Hsetup;
      [discriminate |].
    destruct (syslog_New_res E _ (Z.lor LOG_USER LOG_ERR) name);
      cbn [snd fst events add_events bump_sys sys_next] in Hsetup;
      [discriminate |].
    injection Hsetup as <- <- <- <-.
    split; [cbn; rewrite <- !app_assoc; reflexivity |].
    destruct verbose; repeat split.
  - left. unfold ret in Hsetup. injection Hsetup as <- <- <- <-.
    destruct verbose; repeat split.
Qed.

(** C10.  With depth 0 the depth variant of every severity is the plain
    variant: the two are the same computation, as methods of a Logger and
    as functions on the default logger. *)
Theorem Depth_0_is_plain (l : nat) (v : list value) :
  Logger_TraceDepth E l 0 v = Logger_Trace E l v
  /\ Logger_InfoDepth E l 0 v = Logger_Info E l v
  /\ Logger_WarningDepth E l 0 v = Logger_Warning E l v
  /\ Logger_ErrorDepth E l 0 v = Logger_Error E l v
  /\ Logger_FatalDepth E l 0 v = Logger_Fatal E l v
  /\ TraceDepth E 0 v = Trace E v
  /\ InfoDepth E 0 v = Info E v
  /\ WarningDepth E 0 v = Warning E v
  /\ ErrorDepth E 0 v = Error E v
  /\ FatalDepth E 0 v = Fatal E v.
Proof. repeat split. Qed.

(** C2, as the code has it.  A write through a fan-out writer goes to the
    endpoints in list order and stops at the first endpoint whose write
    fails (an error, or fewer bytes taken than given): the endpoints
    before it have all taken the write, the ones after it are not tried.
    When no write fails, every endpoint of the list is written, in order,
    and the write reports success. *)
Theorem fan_out_stops_at_first_failure (ws : list writer) (p : string)
  (s : State) :
  all_live ws ->
  exists k r s',
    multiWriter_Write E ws p s = Ret r s'
    /\ events_since s s' = writes (firstn k ws) p
    /\ stopped_at_first_failure E (events s) ws p k
    /\ (all_writes_ok E (events s) ws p ->
        events_since s s' = writes ws p /\ r = (len p, None)).
Proof.
  intros Hlive.
  destruct (multiWriter_Write_live E ws p Hlive s) as (k & r & Hrun & Hstop & Hfull).
  exists k, r, (add_events (writes (firstn k ws) p) s).
  rewrite events_since_add_events.
  split; [exact Hrun |]. split; [reflexivity |]. split; [exact Hstop |].
  intros Hall. destruct (Hfull Hall) as [-> ->].
  now rewrite firstn_all.
Qed.

(** X20.  Close keeps no record of what it closed: of two Close calls in
    a row on an initialized Logger, made with [logLock] free and closers
    that answer, each returns and each calls [Close] on every closer as
    often as it is in the closer list. *)
Theorem Close_twice_closes_twice (l : nat) (L : Logger) (s : State) :
  logLock s = false ->
  nth_error (heap s) l = Some L ->
  initialized L = true ->
  all_live (closers L) ->
  exists es1 es2,
    Logger_Close E l s = Ret tt (add_events es1 s)
    /\ Logger_Close E l (add_events es1 s) = Ret tt (add_events (es1 ++ es2) s)
    /\ forall c,
         close_count c es1 = count_occ writer_eq_dec (closers L) c
         /\ close_count c es2 = count_occ writer_eq_dec (closers L) c.
Proof.
  intros Hlock Hl Hinit Hlive.
  destruct (Logger_Close_live E l L s Hlock Hl Hlive) as (es1 & Hrun1 & Hn1 & _).
  destruct (Logger_Close_live E l L (add_events es1 s) Hlock Hl Hlive)
    as (es2 & Hrun2 & Hn2 & _).
  exists es1, es2. rewrite Hrun1, Hrun2, add_events_app.
  repeat split; [rewrite Hn1 | rewrite Hn2]; rewrite Hinit; reflexivity.
Qed.

Lemma fatal_sequence (l : nat) (L : Logger) (depth : Z) (txt : string)
  (s : State) :
  logLock s = false ->
  nth_error (heap s) l = Some L ->
  all_live (sink_writers (out (logFatal L))) ->
  all_live (closers L) ->
  writes_closes_exits E l depth txt
    (output E l eFatal depth txt ;;; Logger_Close E l ;;; os_Exit 1) s.
Proof.
  intros Hlock Hl Hsink Hclosers.
  destruct (output_live E l L (logFatal L) eFatal depth txt s Hlock Hl eq_refl Hsink)
    as (k & Hout & Hstop & _).
  destruct (Logger_Close_live E l L
              (add_events
                 (writes (firstn k (sink_writers (out (logFatal L))))
                         (log_line E (logFatal L) (3 + depth) txt)) s)
              Hlock Hl Hclosers) as (es & Hclose & _ & Hw).
  exists L, k, es.
  split; [exact Hl |]. split; [exact Hstop |]. split; [exact Hout |].
  split; [exact Hclose |]. split; [exact Hw |].
  unfold bind. rewrite Hout, Hclose. reflexivity.
Qed.

(** C8.  On a Logger whose Fatal endpoints and closers answer, each of
    Fatal, FatalDepth, Fatalln and Fatalf first sends the line through the
    Logger's Fatal writer, then runs Close on that same Logger, and once
    Close has returned ends the process with exit status 1; the functions
    of the same names on the default logger do so on the Logger in the
    [defaultLogger] slot. *)
Theorem Fatal_writes_closes_exits (l : nat) (L : Logger) (depth : Z)
  (format : string) (v : list value) (s : State) :
  logLock s = false ->
  nth_error (heap s) l = Some L ->
  all_live (sink_writers (out (logFatal L))) ->
  all_live (closers L) ->
  writes_closes_exits E l 0 (Sprint E v) (Logger_Fatal E l v) s
  /\ writes_closes_exits E l depth (Sprint E v) (Logger_FatalDepth E l depth v) s
  /\ writes_closes_exits E l 0 (Sprintln E v) (Logger_Fatalln E l v) s
  /\ writes_closes_exits E l 0 (Sprintf E format v) (Logger_Fatalf E l format v) s
  /\ (l = defaultLogger s ->
      writes_closes_exits E l 0 (Sprint E v) (Fatal E v) s
      /\ writes_closes_exits E l depth (Sprint E v) (FatalDepth E depth v) s
      /\ writes_closes_exits E l 0 (Sprintln E v) (Fatalln E v) s
      /\ writes_closes_exits E l 0 (Sprintf E format v) (Fatalf E format v) s).
Proof.
  intros Hlock Hl Hsink Hclosers.
  assert (Hpkg : forall d txt,
    l = defaultLogger s ->
    writes_closes_exits E l d txt
      (on_default (fun p => output E p eFatal d txt) ;;;
       on_default (Logger_Close E) ;;; os_Exit 1) s).
  { intros d txt Hdef.
    destruct (fatal_sequence l L d txt s Hlock Hl Hsink Hclosers)
      as (L' & k & es & HL & Hstop & Hout & Hclose & Hw & Hcall).
    exists L', k, es.
    split; [exact HL |]. split; [exact Hstop |]. split; [exact Hout |].
    split; [exact Hclose |]. split; [exact Hw |].
    unfold bind, on_default. rewrite <- Hdef, Hout.
    cbn [defaultLogger add_events]. rewrite <- Hdef, Hclose. reflexivity. }
  do 4 (split; [apply (fatal_sequence l L); assumption |]).
  intros Hdef.
  do 3 (split; [apply Hpkg; exact Hdef |]).
  apply Hpkg; exact Hdef.
Qed.

Lemma string_append_assoc (a b c : string) :
  ((a ++ b) ++ c = a ++ (b ++ c))%string.
Proof. induction a as [|x a IH]; cbn; [reflexivity | now rewrite IH]. Qed.

Lemma endpoints_for_head (level : log_level) (verbose : bool)
  (logFile il wl el : writer) :
  exists tl, endpoints_for level verbose logFile il wl el = logFile :: tl.
Proof.
  unfold endpoints_for, eLogs, wLogs, iLogs, append_present.
  destruct ((level =? eFatal) || (level =? eError)), (level =? eWarn),
    verbose, il, wl, el; eexists; reflexivity.
Qed.

(** The line of a Logger built by Init: flags without [Lmsgprefix], so the
    tag comes first. *)
Lemma tagged_line (lg : log_Logger) (tag : string) (calldepth : Z)
  (txt : string) :
  prefix lg = tag -> flag lg = flags ->
  log_line E lg calldepth txt
  = (tag ++ (stamp E flags calldepth ++ txt
             ++ if ends_with_nl txt then EmptyString else nl))%string.
Proof.
  intros Hp Hf. unfold log_line, log_header. rewrite Hp, Hf.
  change (Z.land flags Lmsgprefix =? 0) with true. cbv iota.
  apply string_append_assoc.
Qed.

(** What is known when a run of Init calls has returned. *)
Lemma Init_run_Ret_inv (cs : list call) :
  forall (s : State) (d : Logger) (tr : list (nat * nat)) (s' : State),
    nth_error (heap s) (defaultLogger s) = Some d ->
    Init_run E cs s = Ret tr s' ->
    map fst tr = seq (List.length (heap s)) (List.length cs)
    /\ (forall q, In q (map snd tr) ->
          q = if initialized d then defaultLogger s else List.length (heap s))
    /\ defaultLogger s'
       = match cs with
         | [] => defaultLogger s
         | _ => if initialized d then defaultLogger s else List.length (heap s)
         end
    /\ (forall p, In p (map fst tr) ->
          exists L, nth_error (heap s') p = Some L /\ initialized L = true)
    /\ (forall a L, nth_error (heap s) a = Some L ->
          nth_error (heap s') a = Some L).
Proof.
  induction cs as [|c cs IH]; intros s d tr s' Hd Hrun.
  - cbn in Hrun. injection Hrun as <- <-. cbn.
    repeat split; try tauto. 
  - cbn [Init_run] in Hrun. unfold bind at 1 in Hrun.
    destruct (Init E (c_name c) (c_verbose c) (c_systemLog c) (c_logFile c) s)
      as [p s2 | | |] eqn:HI; try discriminate.
    destruct (Init_Ret_inv E _ _ _ _ s d p s2 Hd HI)
      as (il & wl & el & s1 & es & _ & _ & Hp & Hs2 & Hh & Hdl & _).
    unfold bind at 1 in Hrun. unfold bind at 1 in Hrun.
    destruct (Init_run E cs s2) as [rest s3 | | |] eqn:Hrest; try discriminate.
    injection Hrun as <- <-.
    set (L := new_Logger (c_verbose c) (c_logFile c) il wl el) in *.
    assert (Hlt : (defaultLogger s < List.length (heap s))%nat).
    { apply nth_error_Some. congruence. }
    assert (Hheap2 : heap s2 = heap s ++ [L]).
    { subst s2. cbn. now rewrite Hh. }
    assert (Hslot2 : defaultLogger s2
                     = if initialized d then defaultLogger s
                       else List.length (heap s)).
    { subst s2. cbn. now rewrite Hh, Hdl. }
    assert (Hd2 : exists d2, nth_error (heap s2) (defaultLogger s2) = Some d2
                             /\ initialized d2 = true).
    { rewrite Hslot2, Hheap2. destruct (initialized d) eqn:Hinit.
      - exists d. rewrite nth_error_app1 by exact Hlt. auto.
      - exists L. rewrite nth_error_snoc. auto. }
    destruct Hd2 as (d2 & Hd2 & Hinit2).
    destruct (IH s2 d2 rest s3 Hd2 Hrest) as (Hfst & Hsnd & Hdef & Huse & Hkeep).
    rewrite Hinit2 in Hsnd.
    assert (Hlen2 : List.length (heap s2) = S (List.length (heap s))).
    { rewrite Hheap2, length_app. cbn. lia. }
    split; [| split; [| split; [| split]]].
    + cbn. rewrite Hfst, Hlen2, Hp. reflexivity.
    + cbn. intros q [<- | Hq]; [exact Hslot2 |].
      rewrite <- Hslot2. now apply Hsnd.
    + rewrite Hdef. destruct cs; [exact Hslot2 |].
      rewrite Hinit2. exact Hslot2.
    + cbn. intros p0 [<- | Hp0]; [| now apply Huse].
      exists L. split; [| reflexivity].
      apply Hkeep. rewrite Hheap2, Hp. apply nth_error_snoc.
    + intros a La Ha. apply Hkeep. rewrite Hheap2.
      rewrite nth_error_app1; [exact Ha |].
      apply nth_error_Some. congruence.
Qed.

(** X18.  A run of Init calls made with [logLock] free and with the
    system log in reach for the calls that ask for it: every call returns,
    each the next free address, where a Logger marked initialized then
    is; the [defaultLogger] slot changes at the first call at most, and
    only if it held a Logger that was not initialized; and the Loggers
    that were there before the run are as they were. *)
Theorem Init_run_registry (cs : list call) :
  forall (s : State) (d : Logger),
    logLock s = false ->
    nth_error (heap s) (defaultLogger s) = Some d ->
    (forall c, In c cs -> c_systemLog c = true ->
       forall hist priority,
         syslog_New_res E hist priority (c_name c) = None) ->
    exists tr s',
      Init_run E cs s = Ret tr s'
      /\ map fst tr = seq (List.length (heap s)) (List.length cs)
      /\ (forall q, In q (map snd tr) ->
            q = if initialized d then defaultLogger s
                else List.length (heap s))
      /\ defaultLogger s'
         = match cs with
           | [] => defaultLogger s
           | _ => if initialized d then defaultLogger s
                  else List.length (heap s)
           end
      /\ (forall p, In p (map fst tr) ->
            exists L, nth_error (heap s') p = Some L /\ initialized L = true)
      /\ (forall a L, nth_error (heap s) a = Some L ->
            nth_error (heap s') a = Some L).
Proof.
  assert (Hruns : forall s d,
    logLock s = false ->
    nth_error (heap s) (defaultLogger s) = Some d ->
    (forall c, In c cs -> c_systemLog c = true ->
       forall hist priority,
         syslog_New_res E hist priority (c_name c) = None) ->
    exists tr s', Init_run E cs s = Ret tr s').
  { induction cs as [|c cs' IH]; intros s d Hlock Hd Hsys.
    - exists [], s. reflexivity.
    - destruct (Init_returns E (c_name c) (c_verbose c) (c_systemLog c)
                  (c_logFile c) s d Hlock Hd
                  (Hsys c (or_introl eq_refl))) as (p & s2 & HI & Hlock2).
      destruct (Init_Ret_inv E _ _ _ _ s d p s2 Hd HI)
        as (il & wl & el & s1 & es & _ & _ & _ & Hs2 & Hh & Hdl & _).
      assert (Hd2 : exists d2,
        nth_error (heap s2) (defaultLogger s2) = Some d2).
      { subst s2. cbn. rewrite Hh, Hdl.
        assert (Hlt : (defaultLogger s < List.length (heap s))%nat)
          by (apply nth_error_Some; congruence).
        destruct (initialized d).
        - exists d. now rewrite nth_error_app1.
        - eexists. apply nth_error_snoc. }
      destruct Hd2 as [d2 Hd2].
      destruct (IH s2 d2 Hlock2 Hd2
                  (fun c0 Hin => Hsys c0 (or_intror Hin)))
        as (rest & s3 & Hrest).
      exists ((p, defaultLogger s2) :: rest), s3.
      cbn [Init_run]. unfold bind. rewrite HI, Hrest. reflexivity. }
  intros s d Hlock Hd Hsys.
  destruct (Hruns s d Hlock Hd Hsys) as (tr & s' & Hrun).
  exists tr, s'. split; [exact Hrun |].
  exact (Init_run_Ret_inv cs s d tr s' Hd Hrun).
Qed.

Lemma collect_closers_filter (ws acc : list writer) :
  collect_closers ws acc = acc ++ filter is_Closer ws.
Proof.
  revert acc. induction ws as [|w ws IH]; intros acc; cbn.
  - now rewrite app_nil_r.
  - rewrite IH. destruct (is_Closer w); [now rewrite <- app_assoc | reflexivity].
Qed.

(** X19.  A call of Init made with [logLock] free, the system log in
    reach if asked for, and a caller's sink that existed before the call:
    the call returns, the closable ones among the four variables the
    closer list is filled from are then different from one another, so
    each is in the list once and one Close calls [Close] on it once. *)
Theorem Init_closers_closed_once (name : string) (verbose systemLog : bool)
  (logFile : writer) (s : State) (d : Logger) :
  logLock s = false ->
  nth_error (heap s) (defaultLogger s) = Some d ->
  (systemLog = true ->
   forall hist priority, syslog_New_res E hist priority name = None) ->
  sink_known s logFile ->
  exists p s' il wl el,
    Init E name verbose systemLog logFile s = Ret p s'
    /\ nth_error (heap s') p = Some (new_Logger verbose logFile il wl el)
    /\ closers (new_Logger verbose logFile il wl el)
       = filter is_Closer [logFile; il; wl; el]
    /\ NoDup (closers (new_Logger verbose logFile il wl el))
    /\ (forall level, In logFile (endpoints_for level verbose logFile il wl el))
    /\ exists es,
         Logger_Close E p s' = Ret tt (add_events es s')
         /\ forall c, In c [logFile; il; wl; el] -> is_Closer c = true ->
              close_count c es = 1%nat.
Proof.
  intros Hlock0 Hd Hreach Hknown.
  destruct (Init_returns E name verbose systemLog logFile s d Hlock0 Hd Hreach)
    as (p & s' & Hrun & _).
  exists p, s'.
  destruct (Init_Ret_inv E name verbose systemLog logFile s d p s' Hd Hrun)
    as (il & wl & el & s1 & es0 & _ & _ & Hp & Hs' & Hh & _ & _ & _ & Hcase).
  exists il, wl, el.
  set (L := new_Logger verbose logFile il wl el) in *.
  assert (Hcl : closers L = filter is_Closer [logFile; il; wl; el]).
  { unfold L, new_Logger; cbn [closers]. apply collect_closers_filter. }
  assert (Hfile : is_Closer logFile = true -> live logFile = true).
  { destruct logFile as [| | | a c | [k|]]; cbn in *; congruence || tauto. }
  assert (Hsys : NoDup (closers L) /\ all_live (closers L)).
  { rewrite Hcl. unfold all_live.
    destruct Hcase as [(_ & -> & -> & -> & _) | (_ & -> & -> & -> & _)]; cbn.
    - destruct (is_Closer logFile) eqn:Hc; split; repeat constructor; auto.
    - assert (Hne : forall j, (sys_next s <= j)%nat -> logFile <> Sys (Some j)).
      { intros j Hj ->. cbn in Hknown. lia. }
      assert (Hnd : NoDup [Sys (Some (sys_next s)); Sys (Some (S (sys_next s)));
                           Sys (Some (S (S (sys_next s))))]).
      { repeat constructor; cbn; intros H;
          repeat (destruct H as [H | H]; [injection H; lia |]); exact H. }
      destruct (is_Closer logFile) eqn:Hc; split;
        try (repeat constructor; auto; fail); try exact Hnd.
      constructor; [| exact Hnd].
      cbn. intros H.
      repeat (destruct H as [H | H];
              [symmetry in H; revert H; apply Hne; lia |]).
      exact H. }
  destruct Hsys as [Hnd Hlive].
  assert (Hat : nth_error (heap s') p = Some L).
  { subst s' p. cbn. rewrite Hh. apply nth_error_snoc. }
  split; [exact Hrun |].
  split; [exact Hat |]. split; [exact Hcl |]. split; [exact Hnd |].
  split.
  { intros level.
    destruct (endpoints_for_head level verbose logFile il wl el) as [tl ->].
    now left. }
  assert (Hlock : logLock s' = false) by (subst s'; reflexivity).
  destruct (Logger_Close_live E p L s' Hlock Hat Hlive) as (es & Hclose & Hn & _).
  exists es. split; [exact Hclose |].
  intros c Hin Hc. rewrite Hn. cbn [initialized L new_Logger].
  apply NoDup_count_occ'; [exact Hnd |].
  rewrite Hcl. apply filter_In. auto.
Qed.

(** After Close, an emission on the same Logger still runs as before: the
    line is written and the call returns. *)
Lemma output_after_Close_returns (l : nat) (L : Logger) (lg : log_Logger)
  (level : log_level) (depth : Z) (txt : string) (s : State) :
  logLock s = false ->
  nth_error (heap s) l = Some L ->
  level_logger L level = Some lg ->
  all_live (sink_writers (out lg)) ->
  all_live (closers L) ->
  exists es k,
    Logger_Close E l s = Ret tt (add_events es s)
    /\ output E l level depth txt (add_events es s)
       = Ret tt (add_events
                   (writes (firstn k (sink_writers (out lg)))
                           (log_line E lg (3 + depth) txt))
                   (add_events es s)).
Proof.
  intros Hlock Hl Hlg Hsink Hclosers.
  destruct (Logger_Close_live E l L s Hlock Hl Hclosers) as (es & Hclose & _).
  destruct (output_live E l L lg level depth txt (add_events es s)
              Hlock Hl Hlg Hsink) as (k & Hout & _).
  exists es, k. split; assumption.
Qed.

(** When the system log cannot be set up, Init never comes back: it calls
    [Error] while it holds [logLock], and [output] waits for that lock.
    Nothing is written.  The Logger it built holds the three nil platform
    writers as endpoints. *)
Lemma Init_blocks_when_setup_fails (name : string) (verbose : bool)
  (logFile : writer) (s s1 : State) (il wl el : writer) (err : error)
  (d : Logger) :
  Init_setup E name true s = Ret (il, wl, el, Some err) s1 ->
  logLock s = false ->
  nth_error (heap s) (defaultLogger s) = Some d ->
  Init E name verbose true logFile s
  = Block (after_Init (new_Logger verbose logFile (Sys None) (Sys None) (Sys None))
                      (initialized d) true s1)
    /\ filter is_write (events_since s s1) = [].
Proof.
  intros Hsetup Hlock Hd.
  destruct (Init_setup_cases E name true s)
    as (il' & wl' & el' & e' & s1' & es & Hsetup' & Hh & Hdl & Hl & Hev & Hw
        & Hcase).
  rewrite Hsetup in Hsetup'. injection Hsetup' as <- <- <- <- <-.
  destruct Hcase as [(H & _) | [(_ & H & _) | (_ & _ & -> & -> & ->)]];
    try discriminate.
  split.
  - apply (Init_eval E name verbose true logFile s s1 _ _ _ (Some err) d Hsetup).
    + congruence.
    + now rewrite Hh, Hdl.
  - unfold events_since. rewrite Hev, skipn_app, skipn_all, Nat.sub_diag.
    exact Hw.
Qed.

End Claims.

(** ** Where the code parts from the specification *)

(** C2, as worded, fails: the caller's sink comes first in the list and its
    write fails, so the console that follows it is never written. *)
Lemma fan_out_skips_after_failure :
  ~ fans_out_to_all bad_sink [Obj 0 false; Stderr] "x" start.
Proof. unfold fans_out_to_all. vm_compute. discriminate. Qed.

(** C6.  The comment on Close promises that every later call on the Logger
    panics.  Here a Logger over a plain buffer is closed and then used:
    Info writes its line to the buffer and returns. *)
Theorem Info_after_Close_returns :
  exists s',
    (p <- Init quiet "app" false false (Obj 0 false) ;;
     Logger_Close quiet p ;;;
     Logger_Info quiet p [VString "x"])%go start = Ret tt s'
    /\ events s' = [EvWrite (Obj 0 false) ("[I] x" ++ nl)%string]
    /\ ~ panics ((p <- Init quiet "app" false false (Obj 0 false) ;;
                  Logger_Close quiet p ;;;
                  Logger_Info quiet p [VString "x"])%go start).
Proof.
  eexists. split; [vm_compute; reflexivity |].
  split; [reflexivity |]. vm_compute. exact (fun H => H).
Qed.

(** C7.  The system log cannot be reached.  Init takes [logLock], calls
    [Error] with the adapter's error, and [Error] waits for [logLock]: the
    call never returns and no line is written.  The Logger it has put in
    the [defaultLogger] slot lists the nil platform writer among the
    endpoints of every severity and three times among its closers. *)
Theorem Init_blocks_when_syslog_fails :
  exists s',
    Init no_syslog "app" false true (Obj 0 false) start = Block s'
    /\ logLock s' = true
    /\ filter is_write (events s') = []
    /\ defaultLogger s' = 1%nat
    /\ nth_error (heap s') 1
       = Some (new_Logger false (Obj 0 false) (Sys None) (Sys None) (Sys None))
    /\ eLogs (Obj 0 false) (Sys None) = [Obj 0 false; Sys None; Stderr]
    /\ iLogs false (Obj 0 false) (Sys None) = [Obj 0 false; Sys None]
    /\ closers (new_Logger false (Obj 0 false) (Sys None) (Sys None) (Sys None))
       = [Sys None; Sys None; Sys None]
    /\ Init quiet "app" false false (Obj 0 false) start
       = Ret 1%nat (started quiet false false (Obj 0 false))
    /\ eLogs (Obj 0 false) Nil = [Obj 0 false; Stderr].
Proof.
  eexists. split; [vm_compute; reflexivity |].
  repeat split.
Qed.

(** ** The properties at work on sample runs *)

Lemma fan_out_stops_at_first_failure_witness :
  all_live [Obj 0 false; Stderr]
  /\ exists k r s',
       multiWriter_Write bad_sink [Obj 0 false; Stderr] "x" start = Ret r s'
       /\ events_since start s' = writes (firstn k [Obj 0 false; Stderr]) "x"
       /\ stopped_at_first_failure bad_sink (events start)
            [Obj 0 false; Stderr] "x" k
       /\ (all_writes_ok bad_sink (events start) [Obj 0 false; Stderr] "x" ->
           events_since start s' = writes [Obj 0 false; Stderr] "x"
           /\ r = (len "x", None)).
Proof.
  assert (H : all_live [Obj 0 false; Stderr]) by (repeat constructor).
  split; [exact H |].
  exact (fan_out_stops_at_first_failure bad_sink
           [Obj 0 false; Stderr] "x" start H).
Defined.

Lemma Init_run_registry_witness :
  logLock start = false
  /\ nth_error (heap start) (defaultLogger start) = Some bootstrap
  /\ (forall c, In c two_calls -> c_systemLog c = true ->
        forall hist priority,
          syslog_New_res quiet hist priority (c_name c) = None)
  /\ exists tr s',
       Init_run quiet two_calls start = Ret tr s'
       /\ map fst tr = [1%nat; 2%nat]
       /\ (forall q, In q (map snd tr) -> q = 1%nat)
       /\ defaultLogger s' = 1%nat
       /\ (forall p, In p (map fst tr) ->
             exists L, nth_error (heap s') p = Some L /\ initialized L = true)
       /\ (forall a L, nth_error (heap start) a = Some L ->
             nth_error (heap s') a = Some L).
Proof.
  assert (Hl : logLock start = false) by reflexivity.
  assert (Hd : nth_error (heap start) (defaultLogger start) = Some bootstrap)
    by reflexivity.
  assert (Hsys : forall c, In c two_calls -> c_systemLog c = true ->
            forall hist priority,
              syslog_New_res quiet hist priority (c_name c) = None)
    by (intros; reflexivity).
  split; [exact Hl |]. split; [exact Hd |]. split; [exact Hsys |].
  exact (Init_run_registry quiet two_calls start bootstrap Hl Hd Hsys).
Defined.

Lemma Init_closers_closed_once_witness :
  logLock start = false
  /\ nth_error (heap start) (defaultLogger start) = Some bootstrap
  /\ (true = true ->
      forall hist priority, syslog_New_res quiet hist priority "app" = None)
  /\ sink_known start (Obj 0 true)
  /\ exists p s' il wl el,
       Init quiet "app" false true (Obj 0 true) start = Ret p s'
       /\ nth_error (heap s') p = Some (new_Logger false (Obj 0 true) il wl el)
       /\ closers (new_Logger false (Obj 0 true) il wl el)
          = filter is_Closer [Obj 0 true; il; wl; el]
       /\ NoDup (closers (new_Logger false (Obj 0 true) il wl el))
       /\ (forall level,
             In (Obj 0 true) (endpoints_for level false (Obj 0 true) il wl el))
       /\ exists es,
            Logger_Close quiet p s' = Ret tt (add_events es s')
            /\ forall c, In c [Obj 0 true; il; wl; el] -> is_Closer c = true ->
                 close_count c es = 1%nat.
Proof.
  assert (Hl : logLock start = false) by reflexivity.
  assert (Hd : nth_error (heap start) (defaultLogger start) = Some bootstrap)
    by reflexivity.
  assert (Hsys : true = true ->
            forall hist priority,
              syslog_New_res quiet hist priority "app" = None)
    by (intros; reflexivity).
  assert (Hk : sink_known start (Obj 0 true)) by exact I.
  split; [exact Hl |]. split; [exact Hd |]. split; [exact Hsys |].
  split; [exact Hk |].
  exact (Init_closers_closed_once quiet "app" false true (Obj 0 true) start
           bootstrap Hl Hd Hsys Hk).
Defined.

Lemma Close_twice_closes_twice_witness :
  logLock (started quiet false false (Obj 0 true)) = false
  /\ nth_error (heap (started quiet false false (Obj 0 true))) 1
     = Some (plain_Logger (Obj 0 true))
  /\ initialized (plain_Logger (Obj 0 true)) = true
  /\ all_live (closers (plain_Logger (Obj 0 true)))
  /\ exists es1 es2,
       Logger_Close quiet 1 (started quiet false false (Obj 0 true))
       = Ret tt (add_events es1 (started quiet false false (Obj 0 true)))
       /\ Logger_Close quiet 1
            (add_events es1 (started quiet false false (Obj 0 true)))
          = Ret tt (add_events (es1 ++ es2)
                      (started quiet false false (Obj 0 true)))
       /\ forall c,
            close_count c es1
            = count_occ writer_eq_dec (closers (plain_Logger (Obj 0 true))) c
            /\ close_count c es2
               = count_occ writer_eq_dec (closers (plain_Logger (Obj 0 true))) c.
Proof.
  assert (H1 : logLock (started quiet false false (Obj 0 true)) = false)
    by reflexivity.
  assert (H2 : nth_error (heap (started quiet false false (Obj 0 true))) 1
               = Some (plain_Logger (Obj 0 true))) by reflexivity.
  assert (H3 : initialized (plain_Logger (Obj 0 true)) = true) by reflexivity.
  assert (H4 : all_live (closers (plain_Logger (Obj 0 true))))
    by (repeat constructor).
  split; [exact H1 |]. split; [exact H2 |]. split; [exact H3 |].
  split; [exact H4 |].
  exact (Close_twice_closes_twice quiet 1 (plain_Logger (Obj 0 true))
           (started quiet false false (Obj 0 true)) H1 H2 H3 H4).
Defined.

Lemma Fatal_writes_closes_exits_witness :
  logLock (started quiet false false (Obj 0 true)) = false
  /\ nth_error (heap (started quiet false false (Obj 0 true))) 1
     = Some (plain_Logger (Obj 0 true))
  /\ all_live (sink_writers (out (logFatal (plain_Logger (Obj 0 true)))))
  /\ all_live (closers (plain_Logger (Obj 0 true)))
  /\ writes_closes_exits quiet 1 0 (Sprint quiet [VString "x"])
       (Logger_Fatal quiet 1 [VString "x"])
       (started quiet false false (Obj 0 true))
  /\ writes_closes_exits quiet 1 2 (Sprint quiet [VString "x"])
       (Logger_FatalDepth quiet 1 2 [VString "x"])
       (started quiet false false (Obj 0 true))
  /\ writes_closes_exits quiet 1 0 (Sprintln quiet [VString "x"])
       (Logger_Fatalln quiet 1 [VString "x"])
       (started quiet false false (Obj 0 true))
  /\ writes_closes_exits quiet 1 0 (Sprintf quiet "%v" [VString "x"])
       (Logger_Fatalf quiet 1 "%v" [VString "x"])
       (started quiet false false (Obj 0 true))
  /\ (1%nat = defaultLogger (started quiet false false (Obj 0 true)) ->
      writes_closes_exits quiet 1 0 (Sprint quiet [VString "x"])
        (Fatal quiet [VString "x"])
        (started quiet false false (Obj 0 true))
      /\ writes_closes_exits quiet 1 2 (Sprint quiet [VString "x"])
           (FatalDepth quiet 2 [VString "x"])
           (started quiet false false (Obj 0 true))
      /\ writes_closes_exits quiet 1 0 (Sprintln quiet [VString "x"])
           (Fatalln quiet [VString "x"])
           (started quiet false false (Obj 0 true))
      /\ writes_closes_exits quiet 1 0 (Sprintf quiet "%v" [VString "x"])
           (Fatalf quiet "%v" [VString "x"])
           (started quiet false false (Obj 0 true))).
Proof.
  assert (H1 : logLock (started quiet false false (Obj 0 true)) = false)
    by reflexivity.
  assert (H2 : nth_error (heap (started quiet false false (Obj 0 true))) 1
               = Some (plain_Logger (Obj 0 true))) by reflexivity.
  assert (H3 : all_live
                 (sink_writers (out (logFatal (plain_Logger (Obj 0 true))))))
    by (repeat constructor).
  assert (H4 : all_live (closers (plain_Logger (Obj 0 true))))
    by (repeat constructor).
  split; [exact H1 |]. split; [exact H2 |]. split; [exact H3 |].
  split; [exact H4 |].
  exact (Fatal_writes_closes_exits quiet 1 (plain_Logger (Obj 0 true)) 2 "%v"
           [VString "x"] (started quiet false false (Obj 0 true))
           H1 H2 H3 H4).
Defined.


(** ** Beyond the claims: the syslog adapter *)

Section More.

Variable E : Env.

(** X1.  [setup] always returns, and gives all or nothing: three writers,
    new and different from one another, with no error, when the three
    [syslog.New] calls succeed; or three nil pointers with the error of
    the first [syslog.New] call that failed.  It touches neither the
    Loggers, nor the [defaultLogger] slot, nor [logLock]. *)
Theorem setup_all_or_nothing (src : string) (s : State) :
  exists r s',
    setup E src s = Ret r s'
    /\ heap s' = heap s /\ defaultLogger s' = defaultLogger s
    /\ logLock s' = logLock s
    /\ r = match syslog_New_res E (events s)
                   (Z.lor LOG_USER LOG_NOTICE) src with
           | Some err => (None, None, None, Some err)
           | None =>
               match syslog_New_res E
                       (events s ++ firstn 1 (setup_dials src))
                       (Z.lor LOG_USER LOG_WARNING) src with
               | Some err => (None, None, None, Some err)
               | None =>
                   match syslog_New_res E
                           (events s ++ firstn 2 (setup_dials src))
                           (Z.lor LOG_USER LOG_ERR) src with
                   | Some err => (None, None, None, Some err)
                   | None =>
                       (Some (sys_next s), Some (S (sys_next s)),
                        Some (S (S (sys_next s))), None)
                   end
               end
           end
    /\ (r = (Some (sys_next s), Some (S (sys_next s)),
             Some (S (S (sys_next s))), None)
        \/ exists err, r = (None, None, None, Some err)).
Proof.
  unfold setup, bind, syslog_New, ret, add_event; cbn [snd fst].
  cbn [setup_dials firstn]. 
  destruct (syslog_New_res E (events s) (Z.lor LOG_USER LOG_NOTICE) src)
    as [e1|]; cbn [snd fst events add_events bump_sys sys_next].
  { do 2 eexists. split; [reflexivity |]. cbn. eauto 10. }
  destruct (syslog_New_res E _ (Z.lor LOG_USER LOG_WARNING) src)
    as [e2|]; cbn [snd fst events add_events bump_sys sys_next].
  { do 2 eexists. split; [reflexivity |]. cbn. eauto 10. }
  rewrite <- app_assoc. cbn [app].
  destruct (syslog_New_res E _ (Z.lor LOG_USER LOG_ERR) src)
    as [e3|]; cbn [snd fst events add_events bump_sys sys_next].
  { do 2 eexists. split; [reflexivity |]. cbn. eauto 10. }
  do 2 eexists. split; [reflexivity |]. cbn. auto 10.
Qed.

(** X2.  [setup] calls [syslog.New] under the caller's name at the
    priorities user.notice (13), user.warning (12) and user.err (11), in
    that order, and stops at the first call that fails.  After a failure
    it returns nil for all three writers, also for those it had opened
    (one for each call before the failing one), and it does not close
    them: [setup] does nothing but these calls. *)
Theorem setup_dials_until_failure (src : string) (s : State) :
  setup_dials src
  = [EvSyslogNew 13 src; EvSyslogNew 12 src; EvSyslogNew 11 src]
  /\ exists r s' k,
       setup E src s = Ret r s'
       /\ (1 <= k <= 3)%nat
       /\ events s' = events s ++ firstn k (setup_dials src)
       /\ (snd r = None ->
           k = 3%nat /\ sys_next s' = (3 + sys_next s)%nat
           /\ r = (Some (sys_next s), Some (S (sys_next s)),
                   Some (S (S (sys_next s))), None))
       /\ (snd r <> None ->
           r = (None, None, None, snd r)
           /\ sys_next s' = (k - 1 + sys_next s)%nat
           /\ syslog_New_res E (events s ++ firstn (k - 1) (setup_dials src))
                (match k with
                 | 1%nat => 13 | 2%nat => 12 | _ => 11
                 end) src = snd r).
Proof.
  split; [reflexivity |].
  unfold setup, bind, syslog_New, ret, add_event; cbn [snd fst].
  destruct (syslog_New_res E (events s) (Z.lor LOG_USER LOG_NOTICE) src)
    as [e1|] eqn:H1; cbn [snd fst events add_events bump_sys sys_next].
  { do 2 eexists. exists 1%nat. split; [reflexivity |]. cbn.
    rewrite app_nil_r. repeat split; try lia; try discriminate. exact H1. }
  destruct (syslog_New_res E _ (Z.lor LOG_USER LOG_WARNING) src)
    as [e2|] eqn:H2; cbn [snd fst events add_events bump_sys sys_next].
  { do 2 eexists. exists 2%nat. split; [reflexivity |]. cbn.
    rewrite <- app_assoc. repeat split; try lia; try discriminate. exact H2. }
  destruct (syslog_New_res E _ (Z.lor LOG_USER LOG_ERR) src)
    as [e3|] eqn:H3; cbn [snd fst events add_events bump_sys sys_next].
  { do 2 eexists. exists 3%nat. split; [reflexivity |]. cbn.
    rewrite <- !app_assoc. repeat split; try lia; try discriminate.
    rewrite <- app_assoc in H3. exact H3. }
  do 2 eexists. exists 3%nat. split; [reflexivity |]. cbn.
  rewrite <- !app_assoc. repeat split; try lia; congruence.
Qed.


(** ** Beyond the claims: before Init, bad input, and what calls leave *)

Lemma bootstrap_level_logger (level : log_level) :
  0 <= level <= 4 ->
  exists lg,
    level_logger bootstrap level = Some lg
    /\ out lg = SWriter Stderr
    /\ prefix lg = (initText ++ tag_of level)%string
    /\ flag lg = flags.
Proof.
  intros Hlev.
  assert (Hcases : level = eFatal \/ level = eError \/ level = eWarn
                   \/ level = eInfo \/ level = eTrace).
  { unfold eFatal, eError, eWarn, eInfo, eTrace. lia. }
  destruct Hcases as [-> | [-> | [-> | [-> | ->]]]];
    eexists; (split; [reflexivity |]); repeat split.
Qed.

Lemma bootstrap_output (level : log_level) (depth : Z) (txt : string)
  (l : nat) (s : State) :
  logLock s = false ->
  nth_error (heap s) l = Some bootstrap ->
  0 <= level <= 4 ->
  output E l level depth txt s
  = Ret tt
      (add_events
         [EvWrite Stderr
            ((initText ++ tag_of level)
             ++ stamp E flags (3 + depth) ++ txt
             ++ if ends_with_nl txt then EmptyString else nl)%string] s).
Proof.
  intros Hlock Hl Hlev.
  destruct (bootstrap_level_logger level Hlev) as (lg & Hlg & Hout & Hpre & Hfl).
  assert (Hlive : all_live (sink_writers (out lg))).
  { rewrite Hout. repeat constructor. }
  destruct (output_live E l bootstrap lg level depth txt s Hlock Hl Hlg Hlive)
    as (k & Hrun & (Hle & Hpos & _) & _).
  rewrite Hout in *. cbn [sink_writers List.length] in *.
  assert (k = 1%nat) by (specialize (Hpos ltac:(discriminate)); lia).
  subst k. rewrite Hrun.
  rewrite (tagged_line E lg _ (3 + depth) txt Hpre Hfl). reflexivity.
Qed.

Lemma Close_not_initialized (l : nat) (L : Logger) (s : State) :
  logLock s = false ->
  nth_error (heap s) l = Some L ->
  initialized L = false ->
  Logger_Close E l s = Ret tt s.
Proof.
  intros Hlock Hl Hinit.
  unfold Logger_Close, locked, Lock. rewrite Hlock.
  unfold bind at 1. unfold load. cbn [heap set_logLock]. rewrite Hl, Hinit.
  cbn. f_equal. destruct s; cbn in *; subst; reflexivity.
Qed.

(** X4.  While the slot holds the stub, [Close()] does nothing at all: it
    returns and the state is as before.  [Fatal] then writes its one line
    to [os.Stderr] and ends the process with status 1 without closing
    anything. *)
Theorem Close_and_Fatal_before_Init (v : list value) (s : State) :
  logLock s = false ->
  nth_error (heap s) (defaultLogger s) = Some bootstrap ->
  Close E s = Ret tt s
  /\ Fatal E v s
     = Exit 1
         (add_events
            [EvWrite Stderr
               ((initText ++ tagFatal)
                ++ stamp E flags 3 ++ Sprint E v
                ++ if ends_with_nl (Sprint E v) then EmptyString else nl)%string]
            s).
Proof.
  intros Hlock Hl.
  assert (Hclose : forall s0, logLock s0 = false ->
            nth_error (heap s0) (defaultLogger s0) = Some bootstrap ->
            on_default (Logger_Close E) s0 = Ret tt s0).
  { intros s0 H0 H1. unfold on_default.
    apply (Close_not_initialized _ bootstrap); auto. }
  split; [apply Hclose; assumption |].
  unfold Fatal, bind. unfold on_default at 1.
  rewrite (bootstrap_output eFatal 0 (Sprint E v) _ s Hlock Hl)
    by (unfold eFatal; lia).
  rewrite Hclose by assumption. reflexivity.
Qed.

(** X5.  [output] with a level that is none of the five panics with the
    message built from "unrecognized log_level:" and the level; nothing is
    written, and the deferred unlock has run: the state is as before. *)
Theorem output_unrecognized_level (l : nat) (L : Logger) (level : log_level)
  (depth : Z) (txt : string) (s : State) :
  logLock s = false ->
  nth_error (heap s) l = Some L ->
  level < 0 \/ 4 < level ->
  output E l level depth txt s
  = Panic (Sprintln E [VString "unrecognized log_level:"; VInt level]) s.
Proof.
  intros Hlock Hl Hlev.
  unfold output, locked, Lock. rewrite Hlock.
  unfold bind at 1. unfold load. cbn [heap set_logLock]. rewrite Hl.
  unfold eTrace, eInfo, eWarn, eError, eFatal.
  repeat match goal with
         | |- context [level =? ?n] =>
             destruct (Z.eqb_spec level n); [lia |]
         end.
  unfold panic. f_equal. destruct s; cbn in *; subst; reflexivity.
Qed.

Lemma new_Logger_level_logger (verbose : bool) (logFile il wl el : writer)
  (level : log_level) :
  0 <= level <= 4 ->
  exists lg,
    level_logger (new_Logger verbose logFile il wl el) level = Some lg
    /\ out lg = SMulti (endpoints_for level verbose logFile il wl el).
Proof.
  intros Hlev.
  assert (Hcases : level = eFatal \/ level = eError \/ level = eWarn
                   \/ level = eInfo \/ level = eTrace).
  { unfold eFatal, eError, eWarn, eInfo, eTrace. lia. }
  destruct Hcases as [-> | [-> | [-> | [-> | ->]]]];
    eexists; split; reflexivity.
Qed.

Lemma output_on_level_logger (l : nat) (L : Logger) (lg : log_Logger)
  (level : log_level) (depth : Z) (txt : string) (s : State) :
  logLock s = false ->
  nth_error (heap s) l = Some L ->
  level_logger L level = Some lg ->
  output E l level depth txt s
  = match (log_Output E lg (3 + depth) txt ;;; ret tt) (set_logLock true s) with
    | Ret a s2 => Ret a (Unlock s2)
    | Panic m s2 => Panic m (Unlock s2)
    | Block s2 => Block s2
    | Exit n s2 => Exit n s2
    end.
Proof.
  intros Hlock Hl Hlg.
  unfold output, locked, Lock. rewrite Hlock.
  unfold bind at 1. unfold load. cbn [heap set_logLock]. rewrite Hl.
  destruct (level_logger_cases _ _ _ Hlg)
    as [[-> ->] | [[-> ->] | [[-> ->] | [[-> ->] | [-> ->]]]]]; reflexivity.
Qed.

(** X6.  Init takes a nil [logFile] as it comes and puts it first in every
    endpoint list.  On the Logger so built, a message at any of the five
    severities panics on the nil sink before anything is written; the
    lock is free again afterwards. *)
Theorem nil_logFile_panics (verbose : bool) (il wl el : writer) (l : nat)
  (level : log_level) (depth : Z) (txt : string) (s : State) :
  logLock s = false ->
  nth_error (heap s) l = Some (new_Logger verbose Nil il wl el) ->
  0 <= level <= 4 ->
  nth_error (endpoints_for level verbose Nil il wl el) 0 = Some Nil
  /\ output E l level depth txt s = Panic nil_deref s.
Proof.
  intros Hlock Hl Hlev.
  destruct (endpoints_for_head level verbose Nil il wl el) as [tl Htl].
  split; [rewrite Htl; reflexivity |].
  destruct (new_Logger_level_logger verbose Nil il wl el level Hlev)
    as (lg & Hlg & Hout).
  rewrite (output_on_level_logger l _ lg level depth txt s Hlock Hl Hlg).
  unfold log_Output, bind. rewrite Hout, Htl. cbn.
  f_equal. destruct s; cbn in *; subst; reflexivity.
Qed.

Lemma grows_ret {A} (allowed : event -> bool) (a : A) (s : State) :
  grows allowed (Ret a s) s.
Proof. exists []. rewrite add_events_nil. auto. Qed.

Lemma grows_panic {A} (allowed : event -> bool) (m : string) (s : State) :
  grows allowed (@Panic A m s) s.
Proof. exists []. rewrite add_events_nil. auto. Qed.

(** A step that only adds events, followed by another such step. *)
Lemma grows_bind {A B} (allowed : event -> bool) (c : M A) (k : A -> M B)
  (s : State) :
  grows allowed (c s) s ->
  (forall a s1, grows allowed (k a s1) s1) ->
  grows allowed (bind c k s) s.
Proof.
  intros Hc Hk. unfold bind.
  destruct (c s) as [a s1 | m s1 | s1 | n s1]; cbn in Hc; try contradiction.
  - destruct Hc as (es1 & -> & H1).
    specialize (Hk a (add_events es1 s)).
    destruct (k a (add_events es1 s)) as [b s2 | m s2 | s2 | n s2];
      cbn in Hk |- *; try contradiction;
      destruct Hk as (es2 & -> & H2); exists (es1 ++ es2);
      rewrite add_events_app, forallb_app, H1, H2; auto.
  - exact Hc.
Qed.

Lemma writer_Write_grows (w : writer) (p : string) (s : State) :
  grows is_write (writer_Write E w p s) s.
Proof.
  unfold writer_Write. destruct (live w).
  - exists [EvWrite w p]. auto.
  - apply grows_panic.
Qed.

Lemma multiWriter_Write_grows (ws : list writer) (p : string) :
  forall s, grows is_write (multiWriter_Write E ws p s) s.
Proof.
  induction ws as [|w ws IH]; intros s; cbn [multiWriter_Write].
  - apply grows_ret.
  - apply grows_bind; [apply writer_Write_grows |].
    intros r s1. destruct (snd r); [apply grows_ret |].
    destruct (fst r =? len p); [apply IH | apply grows_ret].
Qed.

Lemma log_Output_grows (lg : log_Logger) (calldepth : Z) (txt : string)
  (s : State) :
  grows is_write (log_Output E lg calldepth txt s) s.
Proof.
  unfold log_Output. apply grows_bind; [| intros; apply grows_ret].
  destruct (out lg); cbn [sink_Write];
    [apply writer_Write_grows | apply multiWriter_Write_grows].
Qed.

Lemma close_all_grows (cs : list writer) :
  forall s, grows close_or_report (close_all E cs s) s.
Proof.
  induction cs as [|c cs IH]; intros s; cbn [close_all].
  - apply grows_ret.
  - apply grows_bind.
    + unfold closer_Close. destruct (live c).
      * exists [EvClose c]. auto.
      * apply grows_panic.
    + intros [err|] s1; [| apply IH].
      apply grows_bind; [| intros; apply IH].
      exists [EvCloseFailed c err]. auto.
Qed.

(** Under [logLock.Lock(); defer logLock.Unlock()], a body that only adds
    events comes back with the lock free. *)
Lemma locked_came_back {A} (allowed : event -> bool) (body : M A)
  (s : State) :
  logLock s = false ->
  grows allowed (body (set_logLock true s)) (set_logLock true s) ->
  came_back (locked body s) s allowed.
Proof.
  intros Hlock Hbody. unfold locked, Lock. rewrite Hlock.
  destruct (body (set_logLock true s)) as [a s1 | m s1 | s1 | n s1];
    cbn in Hbody |- *; try contradiction;
    destruct Hbody as (es & -> & Hes);
    (repeat split; [exists es; split; [reflexivity | exact Hes]]).
Qed.

(** X7.  Called with [logLock] free, [output] (any Logger address, any
    level) and [Logger.Close] never block and never end the process: they
    return or panic, and either way [logLock] is free again, no Logger and
    no slot has changed, and all they have done outside is [Write] calls
    (for [output]) or [Close] calls and reports of their failures (for
    [Close]). *)
Theorem output_and_Close_come_back (l : nat) (level : log_level) (depth : Z)
  (txt : string) (s : State) :
  logLock s = false ->
  came_back (output E l level depth txt s) s is_write
  /\ came_back (Logger_Close E l s) s close_or_report.
Proof.
  intros Hlock. split.
  - apply locked_came_back; [exact Hlock |].
    apply grows_bind.
    + unfold load. destruct (nth_error _ l); [apply grows_ret | apply grows_panic].
    + intros L s1.
      repeat match goal with
             | |- context [if ?b then _ else _] => destruct b
             end;
        try (apply grows_bind;
             [apply log_Output_grows | intros; apply grows_ret]).
      apply grows_panic.
  - apply locked_came_back; [exact Hlock |].
    apply grows_bind.
    + unfold load. destruct (nth_error _ l); [apply grows_ret | apply grows_panic].
    + intros L s1. destruct (negb (initialized L));
        [apply grows_ret | apply close_all_grows].
Qed.

Lemma Init_setup_dials (name : string) (systemLog : bool) (s : State) :
  exists r s1 es,
    Init_setup E name systemLog s = Ret r s1
    /\ events s1 = events s ++ es
    /\ forallb is_syslog_New es = true
    /\ (systemLog = false -> es = []).
Proof.
  destruct systemLog; cbn [Init_setup].
  - unfold setup, bind, syslog_New, ret, add_event; cbn [snd fst].
    destruct (syslog_New_res E (events s) (Z.lor LOG_USER LOG_NOTICE) name)
      as [e1|]; cbn [snd fst events add_events bump_sys].
    { do 2 eexists. exists [EvSyslogNew (Z.lor LOG_USER LOG_NOTICE) name].
      split; [reflexivity |]. cbn. repeat split. discriminate. }
    destruct (syslog_New_res E _ (Z.lor LOG_USER LOG_WARNING) name)
      as [e2|]; cbn [snd fst events add_events bump_sys].
    { do 2 eexists.
      exists [EvSyslogNew (Z.lor LOG_USER LOG_NOTICE) name;
              EvSyslogNew (Z.lor LOG_USER LOG_WARNING) name].
      split; [reflexivity |]. cbn. rewrite <- app_assoc. repeat split.
      discriminate. }
    destruct (syslog_New_res E _ (Z.lor LOG_USER LOG_ERR) name)
      as [e3|]; cbn [snd fst events add_events bump_sys].
    { do 2 eexists.
      exists [EvSyslogNew (Z.lor LOG_USER LOG_NOTICE) name;
              EvSyslogNew (Z.lor LOG_USER LOG_WARNING) name;
              EvSyslogNew (Z.lor LOG_USER LOG_ERR) name].
      split; [reflexivity |]. cbn. rewrite <- !app_assoc. repeat split.
      discriminate. }
    do 2 eexists.
    exists [EvSyslogNew (Z.lor LOG_USER LOG_NOTICE) name;
            EvSyslogNew (Z.lor LOG_USER LOG_WARNING) name;
            EvSyslogNew (Z.lor LOG_USER LOG_ERR) name].
    split; [reflexivity |]. cbn. rewrite <- !app_assoc. repeat split.
    discriminate.
  - exists (Nil, Nil, Nil, None), s, []. rewrite app_nil_r. cbn. auto.
Qed.

(** X8.  Up to the point where a call of Init returns, panics or waits
    for [logLock], the only calls it has made outside the package are the
    [syslog.New] calls of [setup]: it has written to no endpoint and
    closed none.  With [systemLog] off it has made no outside call at
    all. *)
Theorem Init_only_dials (name : string) (verbose systemLog : bool)
  (logFile : writer) (s : State) :
  exists es,
    events (state_of (Init E name verbose systemLog logFile s))
    = events s ++ es
    /\ forallb is_syslog_New es = true
    /\ (systemLog = false -> es = []).
Proof.
  destruct (Init_setup_dials name systemLog s)
    as ([[[il wl] el] e] & s1 & es & Hsetup & Hev & Hes & Hoff).
  exists es. rewrite <- Hev.
  assert (Hrun : forall o, o = Init E name verbose systemLog logFile s ->
                 events (state_of o) = events s1).
  { intros o Ho. unfold Init, bind at 1 in Ho. rewrite Hsetup in Ho.
    unfold bind at 1 in Ho. unfold alloc, locked, Lock in Ho.
    clear Hsetup Hev. destruct s1 as [hp dl lk sn ev].
    cbn [logLock push_Logger heap defaultLogger sys_next events] in *.
    destruct lk.
    - subst o. reflexivity.
    - unfold bind at 1 in Ho.
      unfold on_default, load, push_Logger, set_logLock in Ho.
      cbn [heap defaultLogger logLock sys_next events] in Ho.
      destruct (nth_error (hp ++ [new_Logger verbose logFile il wl el]) dl)
        as [d|] eqn:Hd.
      + unfold bind, ret, Error, on_default, output, locked, Lock in Ho.
        destruct (initialized d), e; subst o; reflexivity.
      + subst o. reflexivity. }
  rewrite (Hrun _ eq_refl).
  repeat split; assumption.
Qed.

(** ** Beyond the claims: SetFlags *)

Lemma replaced_nth_same {A} (h : list A) (d : nat) (x : A) :
  (d < List.length h)%nat ->
  nth_error (firstn d h ++ x :: skipn (S d) h) d = Some x.
Proof.
  intros Hd. rewrite nth_error_app2; rewrite length_firstn;
    replace (Nat.min d (List.length h)) with d by lia; [| lia].
  now rewrite Nat.sub_diag.
Qed.

Lemma replaced_nth_other {A} (h : list A) (d a : nat) (x : A) :
  (d < List.length h)%nat -> a <> d ->
  nth_error (firstn d h ++ x :: skipn (S d) h) a = nth_error h a.
Proof.
  intros Hd Ha.
  assert (Hlen : List.length (firstn d h) = d)
    by (rewrite length_firstn; lia).
  destruct (Nat.lt_ge_cases a d) as [Hlt | Hge].
  - rewrite nth_error_app1 by lia. rewrite nth_error_firstn.
    destruct (Nat.ltb_spec a d); [reflexivity | lia].
  - rewrite nth_error_app2 by lia. rewrite Hlen.
    destruct (a - d)%nat as [|k] eqn:Hk; [lia |].
    cbn [nth_error]. rewrite nth_error_skipn. f_equal. lia.
Qed.

Lemma replaced_twice {A} (h : list A) (d : nat) (x y : A) :
  (d < List.length h)%nat ->
  firstn d (firstn d h ++ x :: skipn (S d) h)
  ++ y :: skipn (S d) (firstn d h ++ x :: skipn (S d) h)
  = firstn d h ++ y :: skipn (S d) h.
Proof.
  intros Hd.
  assert (Hlen : List.length (firstn d h) = d)
    by (rewrite length_firstn; lia).
  rewrite firstn_app, skipn_app, Hlen, Nat.sub_diag, firstn_firstn.
  replace (Nat.min d d) with d by lia.
  rewrite (skipn_all2 (firstn d h)) by lia.
  replace (S d - d)%nat with 1%nat by lia.
  cbn. now rewrite app_nil_r.
Qed.

Lemma on_default_logger_eval (f : Logger -> Logger) (s : State) (L : Logger) :
  nth_error (heap s) (defaultLogger s) = Some L ->
  on_default_logger f s
  = Ret tt (set_heap (firstn (defaultLogger s) (heap s)
                      ++ f L :: skipn (S (defaultLogger s)) (heap s)) s).
Proof.
  intros HL. unfold on_default_logger, on_default, bind, load, store.
  rewrite HL. reflexivity.
Qed.

Lemma SetFlags_eval (fl : Z) (s : State) (L : Logger) :
  nth_error (heap s) (defaultLogger s) = Some L ->
  SetFlags fl s
  = Ret tt (set_heap (firstn (defaultLogger s) (heap s)
                      ++ with_flags L fl
                         :: skipn (S (defaultLogger s)) (heap s)) s).
Proof.
  intros HL.
  assert (Hd : (defaultLogger s < List.length (heap s))%nat)
    by (apply nth_error_Some; congruence).
  assert (Hstep : forall (f : Logger -> Logger) (X : Logger),
    on_default_logger f
      (set_heap (firstn (defaultLogger s) (heap s)
                 ++ X :: skipn (S (defaultLogger s)) (heap s)) s)
    = Ret tt (set_heap (firstn (defaultLogger s) (heap s)
                        ++ f X :: skipn (S (defaultLogger s)) (heap s)) s)).
  { intros f X.
    rewrite (on_default_logger_eval f _ X)
      by (cbn; apply replaced_nth_same; exact Hd).
    cbn [heap defaultLogger set_heap]. unfold set_heap at 1.
    cbn [heap defaultLogger logLock sys_next events set_heap].
    rewrite replaced_twice by exact Hd. reflexivity. }
  unfold SetFlags, bind.
  rewrite (on_default_logger_eval _ s L HL).
  rewrite !Hstep. reflexivity.
Qed.

(** X9.  [SetFlags(flag)] returns whether [logLock] is held or not (it
    does not take it), and changes one thing: the flags of the five
    [log.Logger]s of the Logger in the [defaultLogger] slot, all set to
    [flag].  That Logger's endpoints, tags, closers and [initialized] are
    as before, and so are every other Logger, the slot and the log of
    what was written. *)
Theorem SetFlags_changes_flags_only (fl : Z) (s : State) (L : Logger) :
  nth_error (heap s) (defaultLogger s) = Some L ->
  exists s',
    SetFlags fl s = Ret tt s'
    /\ nth_error (heap s') (defaultLogger s) = Some (with_flags L fl)
    /\ (forall a, a <> defaultLogger s ->
          nth_error (heap s') a = nth_error (heap s) a)
    /\ defaultLogger s' = defaultLogger s
    /\ logLock s' = logLock s
    /\ sys_next s' = sys_next s
    /\ events s' = events s.
Proof.
  intros HL.
  assert (Hd : (defaultLogger s < List.length (heap s))%nat)
    by (apply nth_error_Some; congruence).
  eexists. split; [apply (SetFlags_eval fl s L HL) |].
  cbn [heap defaultLogger logLock sys_next events set_heap].
  split; [apply replaced_nth_same; exact Hd |].
  split; [intros a Ha; apply replaced_nth_other; assumption |].
  repeat split.
Qed.

Lemma level_logger_with_flags (L : Logger) (fl : Z) (level : log_level)
  (lg : log_Logger) :
  level_logger L level = Some lg ->
  level_logger (with_flags L fl) level = Some (log_SetFlags lg fl).
Proof.
  intros Hlg.
  destruct (level_logger_cases _ _ _ Hlg)
    as [[-> ->] | [[-> ->] | [[-> ->] | [[-> ->] | [-> ->]]]]]; reflexivity.
Qed.

(** X10.  After [SetFlags(flag)], a message logged on the default logger,
    when that is a Logger built by Init, goes to the same endpoints as
    before and by the same rule (up to the first failing write, [logFile]
    first), but its line follows the new flags: the tag leads the line as
    long as [Lmsgprefix] is not in [flag]; with [Lmsgprefix] the date, time
    and file come first and the tag stands just before the message. *)
Theorem SetFlags_moves_tag (fl : Z) (verbose : bool)
  (logFile il wl el : writer) (level : log_level) (depth : Z) (txt : string)
  (s : State) :
  logLock s = false ->
  nth_error (heap s) (defaultLogger s)
  = Some (new_Logger verbose logFile il wl el) ->
  0 <= level <= 4 ->
  all_live (endpoints_for level verbose logFile il wl el) ->
  exists s1 k,
    SetFlags fl s = Ret tt s1
    /\ output E (defaultLogger s) level depth txt s1
       = Ret tt
           (add_events
              (writes
                 (firstn k (endpoints_for level verbose logFile il wl el))
                 (flagged_line E fl (tag_of level) (3 + depth) txt))
              s1)
    /\ (1 <= k)%nat
    /\ stopped_at_first_failure E (events s)
         (endpoints_for level verbose logFile il wl el)
         (flagged_line E fl (tag_of level) (3 + depth) txt) k.
Proof.
  intros Hlock HL Hlev Hlive.
  assert (Hd : (defaultLogger s < List.length (heap s))%nat)
    by (apply nth_error_Some; congruence).
  assert (Hlg : exists lg,
    level_logger (new_Logger verbose logFile il wl el) level = Some lg
    /\ out lg = SMulti (endpoints_for level verbose logFile il wl el)
    /\ prefix lg = tag_of level).
  { assert (Hcases : level = eFatal \/ level = eError \/ level = eWarn
                     \/ level = eInfo \/ level = eTrace).
    { unfold eFatal, eError, eWarn, eInfo, eTrace. lia. }
    destruct Hcases as [-> | [-> | [-> | [-> | ->]]]];
      eexists; (split; [reflexivity |]); split; reflexivity. }
  destruct Hlg as (lg & Hlg & Hout & Hpre).
  eexists. rewrite (SetFlags_eval fl s _ HL).
  set (s1 := set_heap _ s).
  assert (Hlock1 : logLock s1 = false) by exact Hlock.
  assert (HL1 : nth_error (heap s1) (defaultLogger s)
                = Some (with_flags (new_Logger verbose logFile il wl el) fl)).
  { unfold s1. cbn. apply replaced_nth_same. exact Hd. }
  assert (Hlive1 : all_live (sink_writers (out (log_SetFlags lg fl)))).
  { cbn. rewrite Hout. exact Hlive. }
  destruct (output_live E (defaultLogger s) _ (log_SetFlags lg fl) level depth
              txt s1 Hlock1 HL1 (level_logger_with_flags _ fl level lg Hlg)
              Hlive1) as (k & Hrun & Hstop & _).
  assert (Hline : log_line E (log_SetFlags lg fl) (3 + depth) txt
                  = flagged_line E fl (tag_of level) (3 + depth) txt).
  { unfold log_line, log_header, flagged_line.
    cbn [flag prefix log_SetFlags]. rewrite Hpre.
    destruct (Z.land fl Lmsgprefix =? 0); reflexivity. }
  rewrite Hline in *. cbn [out log_SetFlags] in *. rewrite Hout in *.
  cbn [sink_writers] in *.
  exists k. split; [reflexivity |]. split; [exact Hrun |].
  destruct (endpoints_for_head level verbose logFile il wl el) as [tl Htl].
  split.
  - destruct Hstop as (_ & Hpos & _). apply Hpos. rewrite Htl. discriminate.
  - exact Hstop.
Qed.

Lemma new_Logger_flags (verbose : bool) (logFile il wl el : writer)
  (level : log_level) (lg : log_Logger) :
  level_logger (new_Logger verbose logFile il wl el) level = Some lg ->
  flag lg = flags.
Proof.
  intros Hlg.
  destruct (level_logger_cases _ _ _ Hlg)
    as [[-> ->] | [[-> ->] | [[-> ->] | [[-> ->] | [-> ->]]]]]; reflexivity.
Qed.

(** X11.  [SetFlags] reaches the Logger that the first Init call returned,
    because that is the one in the [defaultLogger] slot, and no Logger of
    a later Init call: after two calls of Init from the start of a
    process, [SetFlags(flag)] sets the flags of the first Logger and
    leaves the second as Init built it. *)
Theorem SetFlags_reaches_first_Init_only (fl : Z) (c1 c2 : call) (s : State)
  (d : Logger) :
  logLock s = false ->
  nth_error (heap s) (defaultLogger s) = Some d ->
  initialized d = false ->
  (forall c, c = c1 \/ c = c2 -> c_systemLog c = true ->
     forall hist priority, syslog_New_res E hist priority (c_name c) = None) ->
  exists p1 s1 p2 s2 s3 L1 L2,
    Init E (c_name c1) (c_verbose c1) (c_systemLog c1) (c_logFile c1) s
    = Ret p1 s1
    /\ Init E (c_name c2) (c_verbose c2) (c_systemLog c2) (c_logFile c2) s1
       = Ret p2 s2
    /\ p1 <> p2
    /\ nth_error (heap s2) p1 = Some L1
    /\ nth_error (heap s2) p2 = Some L2
    /\ SetFlags fl s2 = Ret tt s3
    /\ nth_error (heap s3) p1 = Some (with_flags L1 fl)
    /\ nth_error (heap s3) p2 = Some L2
    /\ (forall level lg, level_logger L2 level = Some lg -> flag lg = flags).
Proof.
  intros Hlock Hd Hinit Hsys.
  destruct (Init_returns E (c_name c1) (c_verbose c1) (c_systemLog c1)
              (c_logFile c1) s d Hlock Hd (Hsys c1 (or_introl eq_refl)))
    as (p1 & s1 & HI1 & Hlock1).
  destruct (Init_Ret_inv E _ _ _ _ s d p1 s1 Hd HI1)
    as (il1 & wl1 & el1 & t1 & es1 & _ & _ & Hp1 & Hs1 & Hh1 & Hdl1 & _).
  set (L1 := new_Logger (c_verbose c1) (c_logFile c1) il1 wl1 el1) in *.
  rewrite Hinit in Hs1.
  assert (Hheap1 : heap s1 = heap s ++ [L1]) by (subst s1; cbn; now rewrite Hh1).
  assert (Hslot1 : defaultLogger s1 = p1) by (subst s1 p1; cbn; now rewrite Hh1).
  assert (Hd1 : nth_error (heap s1) (defaultLogger s1) = Some L1).
  { rewrite Hslot1, Hheap1, Hp1. apply nth_error_snoc. }
  destruct (Init_returns E (c_name c2) (c_verbose c2) (c_systemLog c2)
              (c_logFile c2) s1 L1 Hlock1 Hd1 (Hsys c2 (or_intror eq_refl)))
    as (p2 & s2 & HI2 & Hlock2).
  destruct (Init_Ret_inv E _ _ _ _ s1 L1 p2 s2 Hd1 HI2)
    as (il2 & wl2 & el2 & t2 & es2 & _ & _ & Hp2 & Hs2 & Hh2 & Hdl2 & _).
  set (L2 := new_Logger (c_verbose c2) (c_logFile c2) il2 wl2 el2) in *.
  change (initialized L1) with true in Hs2.
  assert (Hheap2 : heap s2 = (heap s ++ [L1]) ++ [L2]).
  { subst s2. cbn. now rewrite Hh2, Hheap1. }
  assert (Hslot2 : defaultLogger s2 = p1).
  { subst s2. cbn. now rewrite Hdl2. }
  assert (Hlen1 : List.length (heap s1) = S p1).
  { rewrite Hheap1, length_app, Hp1. cbn. lia. }
  assert (Hat1 : nth_error (heap s2) p1 = Some L1).
  { rewrite Hheap2, nth_error_app1, Hp1 by (rewrite length_app; cbn; lia).
    apply nth_error_snoc. }
  assert (Hat2 : nth_error (heap s2) p2 = Some L2).
  { rewrite Hheap2, Hp2, Hheap1. apply nth_error_snoc. }
  assert (Hne : p1 <> p2) by lia.
  assert (Hdef2 : nth_error (heap s2) (defaultLogger s2) = Some L1)
    by (rewrite Hslot2; exact Hat1).
  assert (Hlt : (defaultLogger s2 < List.length (heap s2))%nat)
    by (apply nth_error_Some; congruence).
  exists p1, s1, p2, s2. eexists. exists L1, L2.
  split; [exact HI1 |]. split; [exact HI2 |]. split; [exact Hne |].
  split; [exact Hat1 |]. split; [exact Hat2 |].
  split; [apply (SetFlags_eval fl s2 L1 Hdef2) |].
  cbn [heap set_heap]. rewrite Hslot2 in *.
  split; [apply replaced_nth_same; exact Hlt |].
  split.
  - rewrite replaced_nth_other by (assumption || lia). exact Hat2.
  - intros level lg. apply new_Logger_flags.
Qed.

(** X12.  Flags set before the first Init are lost: [SetFlags] then
    changes the stub only, and the Logger that Init puts in the slot
    carries the package's own flags (date, microseconds, short file) on
    all five severities. *)
Theorem SetFlags_before_Init_is_lost (fl : Z) (name : string)
  (verbose systemLog : bool) (logFile : writer) (s : State) (d : Logger) :
  logLock s = false ->
  nth_error (heap s) (defaultLogger s) = Some d ->
  initialized d = false ->
  (systemLog = true ->
   forall hist priority, syslog_New_res E hist priority name = None) ->
  exists s1 p s2 il wl el,
    SetFlags fl s = Ret tt s1
    /\ Init E name verbose systemLog logFile s1 = Ret p s2
    /\ defaultLogger s2 = p
    /\ nth_error (heap s2) p = Some (new_Logger verbose logFile il wl el)
    /\ (forall level lg,
          level_logger (new_Logger verbose logFile il wl el) level = Some lg ->
          flag lg = flags)
    /\ flags = 21.
Proof.
  intros Hlock Hd Hinit Hsys.
  assert (Hlt : (defaultLogger s < List.length (heap s))%nat)
    by (apply nth_error_Some; congruence).
  eexists. rewrite (SetFlags_eval fl s d Hd).
  set (s1 := set_heap _ s).
  assert (Hlock1 : logLock s1 = false) by exact Hlock.
  assert (Hd1 : nth_error (heap s1) (defaultLogger s1) = Some (with_flags d fl)).
  { unfold s1. cbn. apply replaced_nth_same. exact Hlt. }
  destruct (Init_returns E name verbose systemLog logFile s1 _ Hlock1 Hd1 Hsys)
    as (p & s2 & HI & _).
  destruct (Init_Ret_inv E _ _ _ _ s1 _ p s2 Hd1 HI)
    as (il & wl & el & t & es & _ & _ & Hp & Hs2 & Hh & Hdl & _).
  cbn [initialized with_flags] in Hs2. rewrite Hinit in Hs2.
  exists p, s2, il, wl, el.
  split; [reflexivity |]. split; [exact HI |].
  split; [subst s2 p; cbn; now rewrite Hh |].
  split; [subst s2 p; cbn; rewrite Hh; apply nth_error_snoc |].
  split; [intros level lg; apply new_Logger_flags | reflexivity].
Qed.

End More.

(** ** Beyond the claims: the event log adapter *)

Lemma has_prefix_spec (sub s : string) :
  Windows.has_prefix sub s = true <-> exists b, s = (sub ++ b)%string.
Proof.
  revert s. induction sub as [|a sub IH]; intros s; cbn.
  - split; [intros _; exists s; reflexivity | reflexivity].
  - destruct s as [|c s].
    + split; [discriminate | intros [b Hb]; discriminate].
    + rewrite andb_true_iff, IH, Ascii.eqb_eq. split.
      * intros [-> [b ->]]. exists b. reflexivity.
      * intros [b Hb]. injection Hb as -> ->. split; [reflexivity | eauto].
Qed.

(** [strings.Contains(s, sub)] holds exactly when [sub] occurs in [s]. *)
Lemma contains_spec (s sub : string) :
  Windows.contains s sub = true <-> exists a b, s = (a ++ sub ++ b)%string.
Proof.
  induction s as [|c s IH].
  - cbn [Windows.contains]. rewrite orb_false_r, has_prefix_spec. split.
    + intros [b Hb]. exists EmptyString, b. exact Hb.
    + intros [a [b Hab]]. destruct a; [| discriminate]. exists b. exact Hab.
  - cbn [Windows.contains]. rewrite orb_true_iff, has_prefix_spec, IH. split.
    + intros [[b Hb] | [a [b Hab]]].
      * exists EmptyString, b. exact Hb.
      * exists (String c a), b. cbn. now rewrite Hab.
    + intros [a [b Hab]]. destruct a as [|c' a].
      * left. exists b. exact Hab.
      * right. cbn in Hab. injection Hab as -> ->. eauto.
Qed.

Section WindowsFacts.

Variable W : Windows.Env.
Variables sInfo sWarning sError : Z.

(** X13.  [Write] of the event log writer keeps the contract of
    [io.Writer]: it reports all bytes written, or none together with an
    error, and never a success with bytes missing.  It makes one report
    to its log, carrying the bytes as the message, when the severity of
    the writer is one of the three it knows, and none otherwise; it
    never closes the log.  With the three severities distinct, info goes
    out as event 1 of type Info, warning as event 3 of type Warning and
    error as event 2 of type Error, and the count is all bytes even when
    the report fails. *)
Theorem Windows_Write_contract (w : Windows.writer) (b : string)
  (s : Windows.wstate) :
  sInfo <> sWarning -> sInfo <> sError -> sWarning <> sError ->
  exists n err s',
    Windows.Write W sInfo sWarning sError w b s = ((n, err), s')
    /\ (err = None -> n = len b)
    /\ (n = len b \/ (n = 0 /\ err <> None /\ s' = s))
    /\ Windows.next_handle s' = Windows.next_handle s
    /\ (forall etype eid,
          (Windows.pri w = sInfo /\ etype = Windows.Info_type /\ eid = 1)
          \/ (Windows.pri w = sWarning /\ etype = Windows.Warning_type
              /\ eid = 3)
          \/ (Windows.pri w = sError /\ etype = Windows.Error_type
              /\ eid = 2) ->
          n = len b
          /\ err = Windows.report_res W (Windows.calls s) (Windows.el w)
                     etype eid b
          /\ Windows.calls s'
             = Windows.calls s ++ [Windows.CReport (Windows.el w) etype eid b])
    /\ (Windows.pri w <> sInfo -> Windows.pri w <> sWarning ->
        Windows.pri w <> sError ->
        n = 0 /\ s' = s
        /\ err = Some (Windows.Failure
                         ("unrecognized severity: "
                          ++ Windows.severity_text W (Windows.pri w))%string)).
Proof.
  intros H12 H13 H23. unfold Windows.Write.
  destruct (Z.eqb_spec (Windows.pri w) sInfo) as [Hi | Hi];
    [| destruct (Z.eqb_spec (Windows.pri w) sWarning) as [Hw | Hw];
       [| destruct (Z.eqb_spec (Windows.pri w) sError) as [He | He]]];
    cbn; do 3 eexists; (split; [reflexivity |]);
    (split; [try reflexivity; try discriminate |]);
    (split; [first [left; reflexivity
                   | right; repeat split; discriminate] |]);
    (split; [reflexivity |]); split;
    try (intros etype eid [(Hp & -> & ->) | [(Hp & -> & ->) | (Hp & -> & ->)]];
         try congruence; repeat split);
    try (intros; congruence);
    try (intros; repeat split).
Qed.

Lemma tolerated_spec (err : Windows.werror) :
  negb (Windows.contains (Windows.Error_text W err)
          "registry key already exists")
  && negb (Windows.werror_eqb err Windows.ERROR_ACCESS_DENIED) = false
  <-> Windows.tolerated W err.
Proof.
  unfold Windows.tolerated.
  rewrite andb_false_iff, !negb_false_iff, contains_spec.
  assert (Heq : Windows.werror_eqb err Windows.ERROR_ACCESS_DENIED = true
                <-> err = Windows.ERROR_ACCESS_DENIED).
  { unfold Windows.ERROR_ACCESS_DENIED. destruct err as [c | m]; cbn.
    - rewrite Z.eqb_eq. split; [intros ->; reflexivity | congruence].
    - split; discriminate. }
  rewrite Heq. reflexivity.
Qed.

Lemma newW_cases (p : Z) (name : string) (s : Windows.wstate) :
  exists r s',
    Windows.newW W p name s = (r, s')
    /\ match Windows.install_res W (Windows.calls s) name Windows.events_supported with
       | None => Windows.opened W p name s r s'
       | Some err =>
           (Windows.tolerated W err -> Windows.opened W p name s r s')
           /\ (~ Windows.tolerated W err ->
               r = (None, Some err)
               /\ Windows.calls s'
                  = Windows.calls s
                    ++ [Windows.CInstall name Windows.events_supported]
               /\ Windows.next_handle s' = Windows.next_handle s)
       end.
Proof.
  assert (Hopen : forall s1,
    s1 = Windows.record_call (Windows.CInstall name Windows.events_supported) s ->
    exists r s',
      Windows.wbind (Windows.Open W name)
        (fun o => match o with
                  | inr err => Windows.wret (None, Some err)
                  | inl h =>
                      Windows.wret
                        (Some {| Windows.pri := p; Windows.src := name;
                                 Windows.el := h |}, None)
                  end) s1 = (r, s')
      /\ Windows.opened W p name s r s').
  { intros s1 ->. unfold Windows.wbind, Windows.Open, Windows.opened.
    cbn [Windows.calls Windows.record_call Windows.next_handle].
    destruct (Windows.open_res W _ name) as [e|]; cbn;
      do 2 eexists; (split; [reflexivity |]); cbn;
      rewrite <- app_assoc; cbn; auto. }
  unfold Windows.newW, Windows.wbind at 1, Windows.InstallAsEventCreate.
  fold Windows.events_supported.
  destruct (Windows.install_res W (Windows.calls s) name Windows.events_supported)
    as [err|].
  - destruct (negb (Windows.contains (Windows.Error_text W err)
                      "registry key already exists")
              && negb (Windows.werror_eqb err Windows.ERROR_ACCESS_DENIED))
      eqn:Htol.
    + do 2 eexists. split; [reflexivity |]. split.
      * intros Ht. apply tolerated_spec in Ht. congruence.
      * intros _. cbn. auto.
    + destruct (Hopen _ eq_refl) as (r & s' & Hrun & Ho).
      exists r, s'. split; [exact Hrun |]. split; [intros _; exact Ho |].
      intros Hn. exfalso. apply Hn. apply tolerated_spec. exact Htol.
  - destruct (Hopen _ eq_refl) as (r & s' & Hrun & Ho).
    exists r, s'. split; [exact Hrun | exact Ho].
Qed.

(** X14.  [newW] registers the source and then opens the log.  It goes on
    to open the log when the registration succeeded and also when it
    failed with a message in which "registry key already exists" occurs,
    or with [ERROR_ACCESS_DENIED]; on any other registration error it
    returns that error with a nil writer and does not try to open.  When
    it opens, the result is a writer with the given severity and source
    on a new handle, or the error of the opening with a nil writer. *)
Theorem newW_passes_over_registration_errors (p : Z) (name : string)
  (s : Windows.wstate) :
  exists r s',
    Windows.newW W p name s = (r, s')
    /\ match Windows.install_res W (Windows.calls s) name Windows.events_supported with
       | None => Windows.opened W p name s r s'
       | Some err =>
           (Windows.tolerated W err -> Windows.opened W p name s r s')
           /\ (~ Windows.tolerated W err ->
               r = (None, Some err)
               /\ Windows.calls s'
                  = Windows.calls s
                    ++ [Windows.CInstall name Windows.events_supported]
               /\ Windows.next_handle s' = Windows.next_handle s)
       end.
Proof. apply newW_cases. Qed.

Lemma calls_since_app (s s' : Windows.wstate) (cs : list Windows.call) :
  Windows.calls s' = Windows.calls s ++ cs ->
  Windows.calls_since s s' = cs.
Proof.
  intros H. unfold Windows.calls_since.
  rewrite H, skipn_app, skipn_all, Nat.sub_diag. reflexivity.
Qed.

Lemma newW_result (p : Z) (name : string) (s : Windows.wstate) :
  exists r s' cs,
    Windows.newW W p name s = (r, s')
    /\ Windows.calls s' = Windows.calls s ++ cs
    /\ existsb Windows.is_close_call cs = false
    /\ ((r = (Some {| Windows.pri := p; Windows.src := name;
                      Windows.el := Windows.next_handle s |}, None)
         /\ Windows.next_handle s' = S (Windows.next_handle s)
         /\ (match Windows.install_res W (Windows.calls s) name
                     Windows.events_supported with
             | None => True
             | Some err => Windows.tolerated W err
             end))
        \/ (exists err, r = (None, Some err)
            /\ Windows.next_handle s' = Windows.next_handle s
            /\ (match Windows.install_res W (Windows.calls s) name
                        Windows.events_supported with
                | None =>
                    Windows.open_res W
                      (Windows.calls s
                       ++ [Windows.CInstall name Windows.events_supported])
                      name = Some err
                | Some e =>
                    Windows.tolerated W e ->
                    Windows.open_res W
                      (Windows.calls s
                       ++ [Windows.CInstall name Windows.events_supported])
                      name = Some err
                end))).
Proof.
  destruct (newW_cases p name s) as (r & s' & Hrun & Hcase).
  assert (Hopened : Windows.opened W p name s r s' ->
    exists cs,
      Windows.calls s' = Windows.calls s ++ cs
      /\ existsb Windows.is_close_call cs = false
      /\ ((r = (Some {| Windows.pri := p; Windows.src := name;
                        Windows.el := Windows.next_handle s |}, None)
           /\ Windows.next_handle s' = S (Windows.next_handle s))
          \/ (exists err, r = (None, Some err)
              /\ Windows.next_handle s' = Windows.next_handle s
              /\ Windows.open_res W
                   (Windows.calls s
                    ++ [Windows.CInstall name Windows.events_supported])
                   name = Some err))).
  { intros [Hcalls Ho]. eexists. split; [exact Hcalls |].
    split; [reflexivity |].
    destruct (Windows.open_res W _ name) as [e|].
    - right. exists e. tauto.
    - left. exact Ho. }
  exists r, s'.
  destruct (Windows.install_res W (Windows.calls s) name
              Windows.events_supported) as [err|].
  - destruct Hcase as [Hyes Hno].
    destruct (negb (Windows.contains (Windows.Error_text W err)
                      "registry key already exists")
              && negb (Windows.werror_eqb err Windows.ERROR_ACCESS_DENIED))
      eqn:Htol.
    + assert (Hn : ~ Windows.tolerated W err).
      { intros Ht. apply tolerated_spec in Ht. congruence. }
      destruct (Hno Hn) as (-> & Hcalls & Hnext).
      eexists. split; [exact Hrun |]. split; [exact Hcalls |].
      split; [reflexivity |]. right. exists err.
      split; [reflexivity |]. split; [exact Hnext |].
      intros Ht. contradiction.
    + assert (Ht : Windows.tolerated W err) by (apply tolerated_spec; exact Htol).
      destruct (Hopened (Hyes Ht)) as (cs & Hcalls & Hcl & Hres).
      exists cs. split; [exact Hrun |]. split; [exact Hcalls |].
      split; [exact Hcl |].
      destruct Hres as [[Hr Hn] | (e & Hr & Hn & Ho)].
      * left. auto.
      * right. exists e. auto.
  - destruct (Hopened Hcase) as (cs & Hcalls & Hcl & Hres).
    exists cs. split; [exact Hrun |]. split; [exact Hcalls |].
    split; [exact Hcl |].
    destruct Hres as [[Hr Hn] | (e & Hr & Hn & Ho)].
    + left. auto.
    + right. exists e. auto.
Qed.

Lemma newW_by_error (p : Z) (name : string) (s : Windows.wstate) :
  exists s',
    Windows.newW W p name s
    = (match Windows.newW_error W (Windows.calls s) name with
       | Some err => (None, Some err)
       | None =>
           (Some {| Windows.pri := p; Windows.src := name;
                    Windows.el := Windows.next_handle s |}, None)
       end, s')
    /\ (exists cs, Windows.calls s' = Windows.calls s ++ cs
                   /\ existsb Windows.is_close_call cs = false)
    /\ match Windows.newW_error W (Windows.calls s) name with
       | Some _ => Windows.next_handle s' = Windows.next_handle s
       | None =>
           Windows.next_handle s' = S (Windows.next_handle s)
           /\ Windows.calls s' = Windows.calls s ++ Windows.newW_calls name
       end.
Proof.
  unfold Windows.newW, Windows.wbind, Windows.InstallAsEventCreate,
    Windows.newW_error, Windows.Open, Windows.newW_calls, Windows.wret.
  fold Windows.events_supported.
  cbn [Windows.calls Windows.record_call Windows.next_handle].
  destruct (Windows.install_res W (Windows.calls s) name
              Windows.events_supported) as [err|].
  - destruct (negb (Windows.contains (Windows.Error_text W err)
                      "registry key already exists")
              && negb (Windows.werror_eqb err Windows.ERROR_ACCESS_DENIED)).
    + eexists. split; [reflexivity |]. cbn. split; [| reflexivity].
      eexists. split; reflexivity.
    + destruct (Windows.open_res W _ name) as [e|];
        (eexists; split; [reflexivity |]); cbn; rewrite <- app_assoc; cbn;
        (split; [eexists; split; reflexivity | auto]).
  - destruct (Windows.open_res W _ name) as [e|];
      (eexists; split; [reflexivity |]); cbn; rewrite <- app_assoc; cbn;
      (split; [eexists; split; reflexivity | auto]).
Qed.

(** X15.  [setup] of the event log adapter gives all or nothing: three
    writers for the source, of severity info, warning and error, each on
    a handle of its own; or three nil pointers and the error of the first
    [newW] that failed (the error of its registration when that is not
    one to pass over, else the error of its opening).  It never closes a
    handle: the one or two logs it had opened before a failure stay open
    and are not returned. *)
Theorem Windows_setup_all_or_nothing (name : string) (s : Windows.wstate) :
  exists r s',
    Windows.setup W sInfo sWarning sError name s = (r, s')
    /\ existsb Windows.is_close_call (Windows.calls_since s s') = false
    /\ match Windows.newW_error W (Windows.calls s) name with
       | Some err =>
           r = (None, None, None, Some err)
           /\ Windows.next_handle s' = Windows.next_handle s
       | None =>
           match Windows.newW_error W
                   (Windows.calls s ++ Windows.newW_calls name) name with
           | Some err =>
               r = (None, None, None, Some err)
               /\ Windows.next_handle s' = S (Windows.next_handle s)
           | None =>
               match Windows.newW_error W
                       (Windows.calls s ++ Windows.newW_calls name
                        ++ Windows.newW_calls name) name with
               | Some err =>
                   r = (None, None, None, Some err)
                   /\ Windows.next_handle s' = S (S (Windows.next_handle s))
               | None =>
                   r = (Some {| Windows.pri := sInfo; Windows.src := name;
                                Windows.el := Windows.next_handle s |},
                        Some {| Windows.pri := sWarning; Windows.src := name;
                                Windows.el := S (Windows.next_handle s) |},
                        Some {| Windows.pri := sError; Windows.src := name;
                                Windows.el := S (S (Windows.next_handle s)) |},
                        None)
                   /\ Windows.next_handle s'
                      = S (S (S (Windows.next_handle s)))
               end
           end
       end.
Proof.
  unfold Windows.setup, Windows.wbind.
  destruct (newW_by_error sInfo name s) as (s1 & Hrun1 & (cs1 & Hc1 & Hcl1) & Hn1).
  rewrite Hrun1.
  destruct (Windows.newW_error W (Windows.calls s) name) as [e1|];
    cbn [snd fst].
  { do 2 eexists. split; [reflexivity |].
    rewrite (calls_since_app s s1 cs1 Hc1). auto. }
  destruct Hn1 as [Hn1 Hp1].
  destruct (newW_by_error sWarning name s1)
    as (s2 & Hrun2 & (cs2 & Hc2 & Hcl2) & Hn2).
  rewrite Hrun2. rewrite Hp1 in Hn2 |- *.
  assert (Hc12 : Windows.calls s2 = Windows.calls s ++ cs1 ++ cs2)
    by (rewrite Hc2, Hc1, app_assoc; reflexivity).
  destruct (Windows.newW_error W (Windows.calls s ++ Windows.newW_calls name)
              name) as [e2|]; cbn [snd fst].
  { do 2 eexists. split; [reflexivity |].
    rewrite (calls_since_app s s2 _ Hc12), existsb_app, Hcl1, Hcl2.
    split; [reflexivity |]. split; [reflexivity | congruence]. }
  destruct Hn2 as [Hn2 Hp2].
  destruct (newW_by_error sError name s2)
    as (s3 & Hrun3 & (cs3 & Hc3 & Hcl3) & Hn3).
  rewrite Hrun3. rewrite Hp2, <- app_assoc in Hn3 |- *.
  assert (Hc123 : Windows.calls s3 = Windows.calls s ++ cs1 ++ cs2 ++ cs3)
    by (rewrite Hc3, Hc12, <- !app_assoc; reflexivity).
  destruct (Windows.newW_error W
              (Windows.calls s ++ Windows.newW_calls name
               ++ Windows.newW_calls name) name) as [e3|]; cbn [snd fst].
  { do 2 eexists. split; [reflexivity |].
    rewrite (calls_since_app s s3 _ Hc123), !existsb_app, Hcl1, Hcl2, Hcl3.
    split; [reflexivity |]. split; [reflexivity | congruence]. }
  destruct Hn3 as [Hn3 _].
  do 2 eexists. split; [reflexivity |].
  rewrite (calls_since_app s s3 _ Hc123), !existsb_app, Hcl1, Hcl2, Hcl3.
  split; [reflexivity |]. rewrite Hn3, Hn2, Hn1. split; reflexivity.
Qed.

(** X16.  When every registration of the source either succeeds or fails
    with an error that [newW] passes over (the key exists already, or
    access is denied), and the log can be opened, [setup] succeeds: it
    returns the three writers and no error.  So a source registered
    beforehand can be used without the right to register it. *)
Theorem Windows_setup_on_registered_source (name : string)
  (s : Windows.wstate) :
  (forall hist,
     match Windows.install_res W hist name Windows.events_supported with
     | None => True
     | Some err => Windows.tolerated W err
     end) ->
  (forall hist, Windows.open_res W hist name = None) ->
  exists s',
    Windows.setup W sInfo sWarning sError name s
    = ((Some {| Windows.pri := sInfo; Windows.src := name;
                Windows.el := Windows.next_handle s |},
        Some {| Windows.pri := sWarning; Windows.src := name;
                Windows.el := S (Windows.next_handle s) |},
        Some {| Windows.pri := sError; Windows.src := name;
                Windows.el := S (S (Windows.next_handle s)) |},
        None), s')
    /\ List.length (filter Windows.is_open_call (Windows.calls_since s s'))
       = 3%nat.
Proof.
  intros Hinst Hopen.
  assert (Hone : forall p s0, exists s1,
    Windows.newW W p name s0
    = ((Some {| Windows.pri := p; Windows.src := name;
                Windows.el := Windows.next_handle s0 |}, None), s1)
    /\ Windows.next_handle s1 = S (Windows.next_handle s0)
    /\ Windows.calls s1
       = Windows.calls s0
         ++ [Windows.CInstall name Windows.events_supported;
             Windows.COpen name]).
  { intros p s0.
    destruct (newW_cases p name s0) as (r & s1 & Hrun & Hcase).
    specialize (Hinst (Windows.calls s0)).
    assert (Ho : Windows.opened W p name s0 r s1).
    { destruct (Windows.install_res W (Windows.calls s0) name
                  Windows.events_supported); [apply Hcase; exact Hinst |].
      exact Hcase. }
    destruct Ho as [Hcalls Ho]. rewrite Hopen in Ho. destruct Ho as [-> Hn].
    exists s1. auto. }
  unfold Windows.setup, Windows.wbind.
  destruct (Hone sInfo s) as (s1 & -> & Hn1 & Hc1). cbn [snd fst].
  destruct (Hone sWarning s1) as (s2 & -> & Hn2 & Hc2). cbn [snd fst].
  destruct (Hone sError s2) as (s3 & -> & Hn3 & Hc3). cbn [snd fst].
  exists s3. rewrite Hn2, Hn1. split; [reflexivity |].
  rewrite (calls_since_app s s3
             ([Windows.CInstall name Windows.events_supported;
               Windows.COpen name]
              ++ [Windows.CInstall name Windows.events_supported;
                  Windows.COpen name]
              ++ [Windows.CInstall name Windows.events_supported;
                  Windows.COpen name])).
  - reflexivity.
  - rewrite Hc3, Hc2, Hc1, <- !app_assoc. reflexivity.
Qed.

End WindowsFacts.

(** ** These properties on sample runs *)

Lemma Close_and_Fatal_before_Init_witness :
  logLock start = false
  /\ nth_error (heap start) (defaultLogger start) = Some bootstrap
  /\ Close quiet start = Ret tt start
  /\ Fatal quiet [VString "x"] start
     = Exit 1
         (add_events
            [EvWrite Stderr
               ((initText ++ tagFatal)
                ++ stamp quiet flags 3 ++ Sprint quiet [VString "x"]
                ++ if ends_with_nl (Sprint quiet [VString "x"])
                   then EmptyString else nl)%string]
            start).
Proof.
  assert (H1 : logLock start = false) by reflexivity.
  assert (H2 : nth_error (heap start) (defaultLogger start) = Some bootstrap)
    by reflexivity.
  split; [exact H1 |]. split; [exact H2 |].
  exact (Close_and_Fatal_before_Init quiet [VString "x"] start H1 H2).
Defined.

Lemma output_unrecognized_level_witness :
  logLock start = false
  /\ nth_error (heap start) 0 = Some bootstrap
  /\ (7 < 0 \/ 4 < 7)
  /\ output quiet 0 7 0 "x" start
     = Panic (Sprintln quiet [VString "unrecognized log_level:"; VInt 7]) start.
Proof.
  assert (H1 : logLock start = false) by reflexivity.
  assert (H2 : nth_error (heap start) 0 = Some bootstrap) by reflexivity.
  assert (H3 : 7 < 0 \/ 4 < 7) by (right; lia).
  split; [exact H1 |]. split; [exact H2 |]. split; [exact H3 |].
  exact (output_unrecognized_level quiet 0 bootstrap 7 0 "x" start H1 H2 H3).
Defined.

Lemma nil_logFile_panics_witness :
  logLock (started quiet true false Nil) = false
  /\ nth_error (heap (started quiet true false Nil)) 1
     = Some (new_Logger true Nil Nil Nil Nil)
  /\ 0 <= eInfo <= 4
  /\ nth_error (endpoints_for eInfo true Nil Nil Nil Nil) 0 = Some Nil
  /\ output quiet 1 eInfo 0 "x" (started quiet true false Nil)
     = Panic nil_deref (started quiet true false Nil).
Proof.
  assert (H1 : logLock (started quiet true false Nil) = false) by reflexivity.
  assert (H2 : nth_error (heap (started quiet true false Nil)) 1
               = Some (new_Logger true Nil Nil Nil Nil)) by reflexivity.
  assert (H3 : 0 <= eInfo <= 4) by (unfold eInfo; lia).
  split; [exact H1 |]. split; [exact H2 |]. split; [exact H3 |].
  exact (nil_logFile_panics quiet true Nil Nil Nil 1 eInfo 0 "x"
           (started quiet true false Nil) H1 H2 H3).
Defined.

Lemma output_and_Close_come_back_witness :
  logLock (started bad_sink false false (Obj 0 true)) = false
  /\ came_back
       (output bad_sink 1 eError 0 "x"
          (started bad_sink false false (Obj 0 true)))
       (started bad_sink false false (Obj 0 true)) is_write
  /\ came_back
       (Logger_Close bad_sink 1 (started bad_sink false false (Obj 0 true)))
       (started bad_sink false false (Obj 0 true)) close_or_report.
Proof.
  assert (H1 : logLock (started bad_sink false false (Obj 0 true)) = false)
    by reflexivity.
  split; [exact H1 |].
  exact (output_and_Close_come_back bad_sink 1 eError 0 "x"
           (started bad_sink false false (Obj 0 true)) H1).
Defined.

Lemma SetFlags_changes_flags_only_witness :
  nth_error (heap start) (defaultLogger start) = Some bootstrap
  /\ exists s',
       SetFlags Lshortfile start = Ret tt s'
       /\ nth_error (heap s') (defaultLogger start)
          = Some (with_flags bootstrap Lshortfile)
       /\ (forall a, a <> defaultLogger start ->
             nth_error (heap s') a = nth_error (heap start) a)
       /\ defaultLogger s' = defaultLogger start
       /\ logLock s' = logLock start
       /\ sys_next s' = sys_next start
       /\ events s' = events start.
Proof.
  assert (H1 : nth_error (heap start) (defaultLogger start) = Some bootstrap)
    by reflexivity.
  split; [exact H1 |].
  exact (SetFlags_changes_flags_only Lshortfile start bootstrap H1).
Defined.

Lemma SetFlags_moves_tag_witness :
  logLock (started quiet false false (Obj 0 false)) = false
  /\ nth_error (heap (started quiet false false (Obj 0 false)))
       (defaultLogger (started quiet false false (Obj 0 false)))
     = Some (new_Logger false (Obj 0 false) Nil Nil Nil)
  /\ 0 <= eInfo <= 4
  /\ all_live (endpoints_for eInfo false (Obj 0 false) Nil Nil Nil)
  /\ exists s1 k,
       SetFlags Lmsgprefix (started quiet false false (Obj 0 false)) = Ret tt s1
       /\ output quiet (defaultLogger (started quiet false false (Obj 0 false)))
            eInfo 0 "x" s1
          = Ret tt
              (add_events
                 (writes
                    (firstn k
                       (endpoints_for eInfo false (Obj 0 false) Nil Nil Nil))
                    (flagged_line quiet Lmsgprefix (tag_of eInfo) (3 + 0) "x"))
                 s1)
       /\ (1 <= k)%nat
       /\ stopped_at_first_failure quiet
            (events (started quiet false false (Obj 0 false)))
            (endpoints_for eInfo false (Obj 0 false) Nil Nil Nil)
            (flagged_line quiet Lmsgprefix (tag_of eInfo) (3 + 0) "x") k.
Proof.
  assert (H1 : logLock (started quiet false false (Obj 0 false)) = false)
    by reflexivity.
  assert (H2 : nth_error (heap (started quiet false false (Obj 0 false)))
                 (defaultLogger (started quiet false false (Obj 0 false)))
               = Some (new_Logger false (Obj 0 false) Nil Nil Nil))
    by reflexivity.
  assert (H3 : 0 <= eInfo <= 4) by (unfold eInfo; lia).
  assert (H4 : all_live (endpoints_for eInfo false (Obj 0 false) Nil Nil Nil))
    by (repeat constructor).
  split; [exact H1 |]. split; [exact H2 |]. split; [exact H3 |].
  split; [exact H4 |].
  exact (SetFlags_moves_tag quiet Lmsgprefix false (Obj 0 false) Nil Nil Nil
           eInfo 0 "x" (started quiet false false (Obj 0 false))
           H1 H2 H3 H4).
Defined.

Lemma SetFlags_reaches_first_Init_only_witness :
  logLock start = false
  /\ nth_error (heap start) (defaultLogger start) = Some bootstrap
  /\ initialized bootstrap = false
  /\ (forall c,
        c = {| c_name := "app"; c_verbose := false; c_systemLog := true;
               c_logFile := Obj 0 true |}
        \/ c = {| c_name := "lib"; c_verbose := true; c_systemLog := false;
                  c_logFile := Obj 1 false |} ->
        c_systemLog c = true ->
        forall hist priority,
          syslog_New_res quiet hist priority (c_name c) = None)
  /\ exists p1 s1 p2 s2 s3 L1 L2,
       Init quiet "app" false true (Obj 0 true) start = Ret p1 s1
       /\ Init quiet "lib" true false (Obj 1 false) s1 = Ret p2 s2
       /\ p1 <> p2
       /\ nth_error (heap s2) p1 = Some L1
       /\ nth_error (heap s2) p2 = Some L2
       /\ SetFlags 0 s2 = Ret tt s3
       /\ nth_error (heap s3) p1 = Some (with_flags L1 0)
       /\ nth_error (heap s3) p2 = Some L2
       /\ (forall level lg, level_logger L2 level = Some lg -> flag lg = flags).
Proof.
  assert (H1 : logLock start = false) by reflexivity.
  assert (H2 : nth_error (heap start) (defaultLogger start) = Some bootstrap)
    by reflexivity.
  assert (H3 : initialized bootstrap = false) by reflexivity.
  assert (H4 : forall c,
            c = {| c_name := "app"; c_verbose := false; c_systemLog := true;
                   c_logFile := Obj 0 true |}
            \/ c = {| c_name := "lib"; c_verbose := true; c_systemLog := false;
                      c_logFile := Obj 1 false |} ->
            c_systemLog c = true ->
            forall hist priority,
              syslog_New_res quiet hist priority (c_name c) = None)
    by (intros; reflexivity).
  split; [exact H1 |]. split; [exact H2 |]. split; [exact H3 |].
  split; [exact H4 |].
  exact (SetFlags_reaches_first_Init_only quiet 0
           {| c_name := "app"; c_verbose := false; c_systemLog := true;
              c_logFile := Obj 0 true |}
           {| c_name := "lib"; c_verbose := true; c_systemLog := false;
              c_logFile := Obj 1 false |}
           start bootstrap H1 H2 H3 H4).
Defined.

Lemma SetFlags_before_Init_is_lost_witness :
  logLock start = false
  /\ nth_error (heap start) (defaultLogger start) = Some bootstrap
  /\ initialized bootstrap = false
  /\ (false = true ->
      forall hist priority, syslog_New_res quiet hist priority "app" = None)
  /\ exists s1 p s2 il wl el,
       SetFlags 0 start = Ret tt s1
       /\ Init quiet "app" false false (Obj 0 false) s1 = Ret p s2
       /\ defaultLogger s2 = p
       /\ nth_error (heap s2) p
          = Some (new_Logger false (Obj 0 false) il wl el)
       /\ (forall level lg,
             level_logger (new_Logger false (Obj 0 false) il wl el) level
             = Some lg ->
             flag lg = flags)
       /\ flags = 21.
Proof.
  assert (H1 : logLock start = false) by reflexivity.
  assert (H2 : nth_error (heap start) (defaultLogger start) = Some bootstrap)
    by reflexivity.
  assert (H3 : initialized bootstrap = false) by reflexivity.
  assert (H4 : false = true ->
            forall hist priority,
              syslog_New_res quiet hist priority "app" = None)
    by (intros; reflexivity).
  split; [exact H1 |]. split; [exact H2 |]. split; [exact H3 |].
  split; [exact H4 |].
  exact (SetFlags_before_Init_is_lost quiet 0 "app" false false (Obj 0 false)
           start bootstrap H1 H2 H3 H4).
Defined.

Lemma Windows_Write_contract_witness :
  0 <> 1 /\ 0 <> 2 /\ 1 <> 2
  /\ exists n err s',
       Windows.Write Windows.registered 0 1 2
         {| Windows.pri := 1; Windows.src := "app"; Windows.el := 0 |}
         "x" Windows.wstart = ((n, err), s')
       /\ (err = None -> n = len "x")
       /\ (n = len "x" \/ (n = 0 /\ err <> None /\ s' = Windows.wstart))
       /\ Windows.next_handle s' = Windows.next_handle Windows.wstart
       /\ (forall etype eid,
             (1 = 0 /\ etype = Windows.Info_type /\ eid = 1)
             \/ (1 = 1 /\ etype = Windows.Warning_type /\ eid = 3)
             \/ (1 = 2 /\ etype = Windows.Error_type /\ eid = 2) ->
             n = len "x"
             /\ err = Windows.report_res Windows.registered
                        (Windows.calls Windows.wstart) 0 etype eid "x"
             /\ Windows.calls s'
                = Windows.calls Windows.wstart
                  ++ [Windows.CReport 0 etype eid "x"])
       /\ (1 <> 0 -> 1 <> 1 -> 1 <> 2 ->
           n = 0 /\ s' = Windows.wstart
           /\ err = Some (Windows.Failure
                            ("unrecognized severity: "
                             ++ Windows.severity_text Windows.registered 1)%string)).
Proof.
  assert (H1 : 0 <> 1) by lia.
  assert (H2 : 0 <> 2) by lia.
  assert (H3 : 1 <> 2) by lia.
  split; [exact H1 |]. split; [exact H2 |]. split; [exact H3 |].
  exact (Windows_Write_contract Windows.registered 0 1 2
           {| Windows.pri := 1; Windows.src := "app"; Windows.el := 0 |}
           "x" Windows.wstart H1 H2 H3).
Defined.

Lemma Windows_setup_on_registered_source_witness :
  (forall hist,
     match Windows.install_res Windows.registered hist "app"
             Windows.events_supported with
     | None => True
     | Some err => Windows.tolerated Windows.registered err
     end)
  /\ (forall hist, Windows.open_res Windows.registered hist "app" = None)
  /\ exists s',
       Windows.setup Windows.registered 0 1 2 "app" Windows.wstart
       = ((Some {| Windows.pri := 0; Windows.src := "app";
                   Windows.el := Windows.next_handle Windows.wstart |},
           Some {| Windows.pri := 1; Windows.src := "app";
                   Windows.el := S (Windows.next_handle Windows.wstart) |},
           Some {| Windows.pri := 2; Windows.src := "app";
                   Windows.el := S (S (Windows.next_handle Windows.wstart)) |},
           None), s')
       /\ List.length
            (filter Windows.is_open_call
               (Windows.calls_since Windows.wstart s')) = 3%nat.
Proof.
  assert (H1 : forall hist,
            match Windows.install_res Windows.registered hist "app"
                    Windows.events_supported with
            | None => True
            | Some err => Windows.tolerated Windows.registered err
            end).
  { intros hist. left. exists "EventLog/Application/app ", EmptyString.
    reflexivity. }
  assert (H2 : forall hist,
            Windows.open_res Windows.registered hist "app" = None)
    by (intros; reflexivity).
  split; [exact H1 |]. split; [exact H2 |].
  exact (Windows_setup_on_registered_source Windows.registered 0 1 2 "app"
           Windows.wstart H1 H2).
Defined.

(** ** Lines under any flags, and the closer list *)

Section Flags.

Variable E : Env.

Lemma flagged_line_tag_first (fl : Z) (tag : string) (calldepth : Z)
  (txt : string) :
  Z.land fl Lmsgprefix = 0 ->
  flagged_line E fl tag calldepth txt
  = (tag ++ (stamp E fl calldepth ++ txt
             ++ if ends_with_nl txt then EmptyString else nl))%string.
Proof.
  intros H. unfold flagged_line. rewrite H. cbn [Z.eqb].
  apply string_append_assoc.
Qed.

Lemma flagged_line_header_first (fl : Z) (tag : string) (calldepth : Z)
  (txt : string) :
  Z.land fl Lmsgprefix <> 0 ->
  flagged_line E fl tag calldepth txt
  = (stamp E fl calldepth
     ++ (tag ++ txt ++ if ends_with_nl txt then EmptyString else nl))%string.
Proof.
  intros H. unfold flagged_line.
  destruct (Z.eqb_spec (Z.land fl Lmsgprefix) 0); [contradiction |].
  apply string_append_assoc.
Qed.

Lemma log_line_flagged (lg : log_Logger) (fl : Z) (calldepth : Z)
  (txt : string) :
  log_line E (log_SetFlags lg fl) calldepth txt
  = flagged_line E fl (prefix lg) calldepth txt.
Proof.
  unfold log_line, log_header, flagged_line. cbn [flag prefix log_SetFlags].
  destruct (Z.land fl Lmsgprefix =? 0); reflexivity.
Qed.

(** C9, as the code has it.  A Logger built by Init, with the flags Init
    gave it or those a later SetFlags has set: a message logged at a
    severity S goes out as one line made of S's tag, the header of the
    flags, and the message, with a newline if the message does not end in
    one; the tags are "[F] ", "[E] ", "[W] ", "[I] " and "[T] ".  The tag
    leads the line as long as [Lmsgprefix] is not among the flags, as
    with the flags of Init; with [Lmsgprefix] the header leads and the tag
    stands before the message.  The line is written to the endpoints
    configured for S in their order, [logFile] first, up to and including
    the first endpoint whose write fails; when no write fails it is
    written to every endpoint configured for S. *)
Theorem tagged_line_until_first_failure (fl : Z) (verbose : bool)
  (logFile il wl el : writer) (l : nat) (level : log_level) (depth : Z)
  (txt : string) (s : State) :
  logLock s = false ->
  nth_error (heap s) l
  = Some (with_flags (new_Logger verbose logFile il wl el) fl) ->
  0 <= level <= 4 ->
  all_live (endpoints_for level verbose logFile il wl el) ->
  (tag_of eFatal = "[F] " /\ tag_of eError = "[E] " /\ tag_of eWarn = "[W] "
   /\ tag_of eInfo = "[I] " /\ tag_of eTrace = "[T] ")
  /\ with_flags (new_Logger verbose logFile il wl el) flags
     = new_Logger verbose logFile il wl el
  /\ Z.land flags Lmsgprefix = 0
  /\ (Z.land fl Lmsgprefix = 0 ->
      flagged_line E fl (tag_of level) (3 + depth) txt
      = (tag_of level
         ++ (stamp E fl (3 + depth) ++ txt
             ++ if ends_with_nl txt then EmptyString else nl))%string)
  /\ (Z.land fl Lmsgprefix <> 0 ->
      flagged_line E fl (tag_of level) (3 + depth) txt
      = (stamp E fl (3 + depth)
         ++ (tag_of level ++ txt
             ++ if ends_with_nl txt then EmptyString else nl))%string)
  /\ exists k,
       output E l level depth txt s
       = Ret tt
           (add_events
              (writes
                 (firstn k (endpoints_for level verbose logFile il wl el))
                 (flagged_line E fl (tag_of level) (3 + depth) txt)) s)
       /\ (1 <= k)%nat
       /\ nth_error (endpoints_for level verbose logFile il wl el) 0
          = Some logFile
       /\ stopped_at_first_failure E (events s)
            (endpoints_for level verbose logFile il wl el)
            (flagged_line E fl (tag_of level) (3 + depth) txt) k
       /\ (all_writes_ok E (events s)
             (endpoints_for level verbose logFile il wl el)
             (flagged_line E fl (tag_of level) (3 + depth) txt) ->
           k = List.length (endpoints_for level verbose logFile il wl el)).
Proof.
  intros Hlock Hl Hlev Hlive.
  split; [repeat split |]. split; [reflexivity |]. split; [reflexivity |].
  split; [apply flagged_line_tag_first |].
  split; [apply flagged_line_header_first |].
  destruct (endpoints_for_head level verbose logFile il wl el) as [tl Htl].
  assert (Hlg : exists lg,
    level_logger (new_Logger verbose logFile il wl el) level = Some lg
    /\ out lg = SMulti (endpoints_for level verbose logFile il wl el)
    /\ prefix lg = tag_of level).
  { assert (Hcases : level = eFatal \/ level = eError \/ level = eWarn
                     \/ level = eInfo \/ level = eTrace).
    { unfold eFatal, eError, eWarn, eInfo, eTrace. lia. }
    destruct Hcases as [-> | [-> | [-> | [-> | ->]]]];
      eexists; (split; [reflexivity |]); split; reflexivity. }
  destruct Hlg as (lg & Hlg & Hout & Hpre).
  assert (Hlive1 : all_live (sink_writers (out (log_SetFlags lg fl)))).
  { cbn. rewrite Hout. exact Hlive. }
  destruct (output_live E l _ (log_SetFlags lg fl) level depth txt s Hlock Hl
              (level_logger_with_flags _ fl level lg Hlg) Hlive1)
    as (k & Hrun & Hstop & Hfull).
  rewrite log_line_flagged, Hpre in *.
  cbn [out log_SetFlags] in *. rewrite Hout in *. cbn [sink_writers] in *.
  exists k. split; [exact Hrun |].
  split; [destruct Hstop as (_ & Hpos & _); apply Hpos; rewrite Htl;
          discriminate |].
  split; [rewrite Htl; reflexivity |].
  split; [exact Hstop | exact Hfull].
Qed.

Lemma bootstrap_prefix (level : log_level) (lg : log_Logger) :
  level_logger bootstrap level = Some lg ->
  out lg = SWriter Stderr /\ prefix lg = (initText ++ tag_of level)%string.
Proof.
  intros Hlg.
  destruct (level_logger_cases _ _ _ Hlg)
    as [[-> ->] | [[-> ->] | [[-> ->] | [[-> ->] | [-> ->]]]]];
    split; reflexivity.
Qed.

(** X3.  While the [defaultLogger] slot still holds the stub made at
    process start, with the flags it was made with or those a SetFlags has
    given it, a message logged through the default logger at any of the
    five severities is written once, to [os.Stderr] and nowhere else, and
    the call returns.  The line is made of the stub's prefix, that is
    "Logging before logger.Init.", a newline and the tag of the severity,
    of the header of the flags, and of the message; the prefix leads the
    line as long as [Lmsgprefix] is not among the flags, as with the
    flags the stub is made with. *)
Theorem logging_before_Init (fl : Z) (level : log_level) (depth : Z)
  (txt : string) (s : State) :
  logLock s = false ->
  nth_error (heap s) (defaultLogger s) = Some (with_flags bootstrap fl) ->
  0 <= level <= 4 ->
  with_flags bootstrap flags = bootstrap
  /\ Z.land flags Lmsgprefix = 0
  /\ output E (defaultLogger s) level depth txt s
     = Ret tt
         (add_events
            [EvWrite Stderr
               (flagged_line E fl (initText ++ tag_of level) (3 + depth) txt)]
            s)
  /\ (Z.land fl Lmsgprefix = 0 ->
      flagged_line E fl (initText ++ tag_of level) (3 + depth) txt
      = ((initText ++ tag_of level)
         ++ (stamp E fl (3 + depth) ++ txt
             ++ if ends_with_nl txt then EmptyString else nl))%string)
  /\ (Z.land fl Lmsgprefix <> 0 ->
      flagged_line E fl (initText ++ tag_of level) (3 + depth) txt
      = (stamp E fl (3 + depth)
         ++ ((initText ++ tag_of level) ++ txt
             ++ if ends_with_nl txt then EmptyString else nl))%string).
Proof.
  intros Hlock Hl Hlev.
  split; [reflexivity |]. split; [reflexivity |].
  split; [| split; [apply flagged_line_tag_first
                   | apply flagged_line_header_first]].
  destruct (bootstrap_level_logger level Hlev) as (lg & Hlg & _).
  destruct (bootstrap_prefix level lg Hlg) as [Hout Hpre].
  assert (Hlive : all_live (sink_writers (out (log_SetFlags lg fl)))).
  { cbn. rewrite Hout. repeat constructor. }
  destruct (output_live E (defaultLogger s) _ (log_SetFlags lg fl) level depth
              txt s Hlock Hl (level_logger_with_flags _ fl level lg Hlg) Hlive)
    as (k & Hrun & (Hle & Hpos & _) & _).
  rewrite log_line_flagged, Hpre in Hrun.
  cbn [out log_SetFlags] in *. rewrite Hout in *.
  cbn [sink_writers List.length] in *.
  assert (k = 1%nat) by (specialize (Hpos ltac:(discriminate)); lia).
  subst k. exact Hrun.
Qed.


End Flags.

(** ** The calls that go wrong, evaluated *)

(** C1.  [Init("app", false, true, f)] on a host whose system log cannot
    be reached: [setup] hands back three nil [*syslog.Writer] pointers and
    the error; stored in [io.Writer] variables the three are different
    from nil, so the tests before the appends let them through.  The
    Logger that Init builds lists a writer that is not there, between
    [logFile] and [os.Stderr] for Error and Fatal and after [logFile] for
    Warning, Info and Trace, where the lists should be those of a call
    without the system log. *)
Theorem nil_writer_listed_after_failed_setup :
  Init_setup no_syslog "app" true start
  = Ret (Sys None, Sys None, Sys None,
         Some "dial unix /dev/log: no such file")
        (add_event (EvSyslogNew (Z.lor LOG_USER LOG_NOTICE) "app") start)
  /\ live (Sys None) = false
  /\ eLogs (Obj 0 false) (Sys None) = [Obj 0 false; Sys None; Stderr]
  /\ (exists L,
        nth_error (heap (started no_syslog false true (Obj 0 false))) 1
        = Some L
        /\ out (logFatal L) = SMulti [Obj 0 false; Sys None; Stderr]
        /\ out (logError L) = SMulti [Obj 0 false; Sys None; Stderr]
        /\ out (logWarn L) = SMulti [Obj 0 false; Sys None]
        /\ out (logInfo L) = SMulti [Obj 0 false; Sys None]
        /\ out (logTrace L) = SMulti [Obj 0 false; Sys None])
  /\ (exists L,
        nth_error (heap (started no_syslog false false (Obj 0 false))) 1
        = Some L
        /\ out (logFatal L) = SMulti [Obj 0 false; Stderr]
        /\ out (logError L) = SMulti [Obj 0 false; Stderr]
        /\ out (logWarn L) = SMulti [Obj 0 false]
        /\ out (logInfo L) = SMulti [Obj 0 false]
        /\ out (logTrace L) = SMulti [Obj 0 false]).
Proof.
  split; [reflexivity |]. split; [reflexivity |]. split; [reflexivity |].
  split; eexists; (split; [reflexivity |]); repeat split.
Qed.

(** C3.  [Init("app", false, false, f)] and then [Init("lib", false, true,
    g)] on a host whose system log cannot be reached: the first call
    returns and takes the registry slot; the second builds its Logger,
    leaves the slot alone, and then waits for ever on [logLock], which it
    holds itself.  It returns no Logger, and the lock stays taken. *)
Theorem later_Init_blocks_when_syslog_fails :
  exists s1 s',
    Init no_syslog "app" false false (Obj 0 false) start = Ret 1%nat s1
    /\ defaultLogger s1 = 1%nat
    /\ logLock s1 = false
    /\ Init no_syslog "lib" false true (Obj 1 false) s1 = Block s'
    /\ Init_run no_syslog plain_then_syslog start = Block s'
    /\ defaultLogger s' = 1%nat
    /\ logLock s' = true
    /\ nth_error (heap s') 2
       = Some (new_Logger false (Obj 1 false) (Sys None) (Sys None) (Sys None))
    /\ events s' = [EvSyslogNew (Z.lor LOG_USER LOG_NOTICE) "lib"].
Proof.
  do 2 eexists.
  split; [reflexivity |]. split; [reflexivity |]. split; [reflexivity |].
  split; [reflexivity |]. repeat split.
Qed.

(** C5.  [l := Init("app", false, false, f)] with an [f] that has a Close
    method, then [l.Close()] twice: both calls return, and [f.Close] has
    been called twice.  Close leaves no trace in the Logger, so the second
    call goes through the closers as the first did. *)
Theorem Close_twice_calls_Close_twice :
  exists s',
    (p <- Init quiet "app" false false (Obj 0 true) ;;
     Logger_Close quiet p ;;; Logger_Close quiet p) start
    = Ret tt s'
    /\ events s' = [EvClose (Obj 0 true); EvClose (Obj 0 true)]
    /\ close_count (Obj 0 true) (events s') = 2%nat
    /\ nth_error (heap s') 1 = Some (plain_Logger (Obj 0 true))
    /\ ~ closes_at_most_once quiet 1 (started quiet false false (Obj 0 true)).
Proof.
  eexists. split; [reflexivity |]. split; [reflexivity |].
  split; [reflexivity |]. split; [reflexivity |].
  intros H. specialize (H (Obj 0 true)). vm_compute in H. lia.
Qed.


(** C9 as worded fails, twice.  With a [logFile] whose writes fail, an
    Error line never reaches [os.Stderr], which is configured for Error.
    And after [SetFlags(log.LstdFlags | log.Lmsgprefix)] an Info line
    starts with the date, not with "[I] ". *)
Lemma line_short_of_console_and_tag_not_first :
  ~ reaches_every_endpoint bad_sink 1 eError 0 "x"
      (endpoints_for eError false (Obj 0 false) Nil Nil Nil)
      (started bad_sink false false (Obj 0 false))
  /\ events_since
       (state_of (SetFlags (Z.lor LstdFlags Lmsgprefix)
                    (started dated false false (Obj 0 false))))
       (state_of
          (Info dated [VString "x"]
             (state_of (SetFlags (Z.lor LstdFlags Lmsgprefix)
                          (started dated false false (Obj 0 false))))))
     = [EvWrite (Obj 0 false) ("2026/10/31 09:00:00 [I] x" ++ nl)]
  /\ ~ reaches_every_endpoint dated 1 eInfo 0 "x"
         (endpoints_for eInfo false (Obj 0 false) Nil Nil Nil)
         (state_of (SetFlags (Z.lor LstdFlags Lmsgprefix)
                      (started dated false false (Obj 0 false)))).
Proof.
  split; [| split; [reflexivity |]].
  - intros H. destruct (H Stderr) as [rest Hin]; [right; now left |].
    vm_compute in Hin. destruct Hin as [Heq | []]. discriminate Heq.
  - intros H. destruct (H (Obj 0 false)) as [rest Hin]; [now left |].
    vm_compute in Hin. destruct Hin as [Heq | []]. discriminate Heq.
Qed.

(** ** The theorems above at work *)

Lemma tagged_line_until_first_failure_witness :
  logLock (state_of (SetFlags (Z.lor LstdFlags Lmsgprefix)
                       (started dated false false (Obj 0 false)))) = false
  /\ nth_error
       (heap (state_of (SetFlags (Z.lor LstdFlags Lmsgprefix)
                          (started dated false false (Obj 0 false))))) 1
     = Some (with_flags (new_Logger false (Obj 0 false) Nil Nil Nil)
               (Z.lor LstdFlags Lmsgprefix))
  /\ 0 <= eInfo <= 4
  /\ all_live (endpoints_for eInfo false (Obj 0 false) Nil Nil Nil)
  /\ output dated 1 eInfo 0 "x"
       (state_of (SetFlags (Z.lor LstdFlags Lmsgprefix)
                    (started dated false false (Obj 0 false))))
     = Ret tt
         (add_events
            [EvWrite (Obj 0 false) ("2026/10/31 09:00:00 [I] x" ++ nl)]
            (state_of (SetFlags (Z.lor LstdFlags Lmsgprefix)
                         (started dated false false (Obj 0 false))))).
Proof.
  assert (H1 : logLock (state_of (SetFlags (Z.lor LstdFlags Lmsgprefix)
                          (started dated false false (Obj 0 false)))) = false)
    by reflexivity.
  assert (H2 : nth_error
                 (heap (state_of (SetFlags (Z.lor LstdFlags Lmsgprefix)
                          (started dated false false (Obj 0 false))))) 1
               = Some (with_flags (new_Logger false (Obj 0 false) Nil Nil Nil)
                         (Z.lor LstdFlags Lmsgprefix)))
    by reflexivity.
  assert (H3 : 0 <= eInfo <= 4) by (unfold eInfo; lia).
  assert (H4 : all_live (endpoints_for eInfo false (Obj 0 false) Nil Nil Nil))
    by (repeat constructor).
  split; [exact H1 |]. split; [exact H2 |]. split; [exact H3 |].
  split; [exact H4 |].
  destruct (tagged_line_until_first_failure dated
              (Z.lor LstdFlags Lmsgprefix) false (Obj 0 false) Nil Nil Nil
              1%nat eInfo 0 "x" _ H1 H2 H3 H4)
    as (_ & _ & _ & _ & _ & k & Hrun & Hpos & _ & (Hle & _) & _).
  assert (Hk : k = 1%nat) by (simpl in Hle; lia).
  rewrite Hk in Hrun. exact Hrun.
Defined.


Lemma logging_before_Init_witness :
  logLock (state_of (SetFlags (Z.lor LstdFlags Lmsgprefix) start)) = false
  /\ nth_error
       (heap (state_of (SetFlags (Z.lor LstdFlags Lmsgprefix) start)))
       (defaultLogger (state_of (SetFlags (Z.lor LstdFlags Lmsgprefix) start)))
     = Some (with_flags bootstrap (Z.lor LstdFlags Lmsgprefix))
  /\ 0 <= eWarn <= 4
  /\ Warning dated [VString "x"]
       (state_of (SetFlags (Z.lor LstdFlags Lmsgprefix) start))
     = Ret tt
         (add_events
            [EvWrite Stderr
               ("2026/10/31 09:00:00 Logging before logger.Init." ++ nl
                ++ "[W] x" ++ nl)]
            (state_of (SetFlags (Z.lor LstdFlags Lmsgprefix) start))).
Proof.
  assert (H1 : logLock (state_of (SetFlags (Z.lor LstdFlags Lmsgprefix) start))
               = false) by reflexivity.
  assert (H2 : nth_error
                 (heap (state_of (SetFlags (Z.lor LstdFlags Lmsgprefix) start)))
                 (defaultLogger
                    (state_of (SetFlags (Z.lor LstdFlags Lmsgprefix) start)))
               = Some (with_flags bootstrap (Z.lor LstdFlags Lmsgprefix)))
    by reflexivity.
  assert (H3 : 0 <= eWarn <= 4) by (unfold eWarn; lia).
  split; [exact H1 |]. split; [exact H2 |]. split; [exact H3 |].
  destruct (logging_before_Init dated (Z.lor LstdFlags Lmsgprefix) eWarn 0
              (Sprint dated [VString "x"]) _ H1 H2 H3)
    as (_ & _ & Hrun & _).
  exact Hrun.
Defined.

Lemma Init_lists_without_failure_witness :
  Init_setup quiet "app" true start
  = Ret (Sys (Some 0%nat), Sys (Some 1%nat), Sys (Some 2%nat), None)
        (state_of (Init_setup quiet "app" true start))
  /\ exists L,
       nth_error (heap (started quiet true true (Obj 0 false))) 1 = Some L
       /\ out (logError L) = SMulti [Obj 0 false; Sys (Some 2%nat); Stderr]
       /\ out (logWarn L) = SMulti [Obj 0 false; Sys (Some 1%nat); Stdout]
       /\ out (logInfo L) = SMulti [Obj 0 false; Sys (Some 0%nat); Stdout].
Proof.
  assert (H1 : Init_setup quiet "app" true start
               = Ret (Sys (Some 0%nat), Sys (Some 1%nat), Sys (Some 2%nat),
                      None)
                   (state_of (Init_setup quiet "app" true start)))
    by reflexivity.
  split; [exact H1 |].
  destruct (Init_lists_without_failure quiet "app" true true (Obj 0 false)
              _ _ _ start _ H1)
    as (L & Hat & [(Hoff & _)
                  | (_ & _ & _ & _ & _ & He & _ & Hw & Hi & _)]).
  - discriminate Hoff.
  - exists L. split; [exact Hat |]. split; [exact He |].
    split; [exact Hw | exact Hi].
Defined.
